(** * U256: the 256-bit unsigned integer of codechain-primitives

  A shallow embedding of [src/value/U256.ts] and of the parts of its two
  dependencies that the class calls: [bignumber.js] (the arbitrary-precision
  decimal behind [U256.value]) and [rlp] (the codec behind [rlpBytes]).

  JavaScript strings are lists of characters, a [Buffer] is a list of
  bytes, and a function that may [throw] returns a [result]. *)

From Stdlib Require Import NArith ZArith List Bool Ascii String Lia.
From Stdlib Require Import Strings.Byte.
Import ListNotations.

Set Implicit Arguments.

Local Open Scope N_scope.

(** A JavaScript string literal. *)
Definition str : string -> list ascii := list_ascii_of_string.

(** ** Hexadecimal digits *)

Module Hex.

(** The digit alphabet of [toString(16)]: lowercase. *)
Definition alphabet : list ascii := str "0123456789abcdef".

Definition digitChar (d : N) : ascii := nth (N.to_nat d) alphabet "0"%char.

(** Value of a hexadecimal digit, either case. *)
Definition digitOf (c : ascii) : option N :=
  let n := N_of_ascii c in
  if (48 <=? n) && (n <=? 57) then Some (n - 48)
  else if (97 <=? n) && (n <=? 102) then Some (n - 87)
  else if (65 <=? n) && (n <=? 70) then Some (n - 55)
  else None.

Definition isDecimal (c : ascii) : bool :=
  let n := N_of_ascii c in (48 <=? n) && (n <=? 57).

(** [0-9a-f] *)
Definition isLower (c : ascii) : bool :=
  let n := N_of_ascii c in
  ((48 <=? n) && (n <=? 57)) || ((97 <=? n) && (n <=? 102)).

(** [0-9A-F] *)
Definition isUpper (c : ascii) : bool :=
  let n := N_of_ascii c in
  ((48 <=? n) && (n <=? 57)) || ((65 <=? n) && (n <=? 70)).

(** Digits of one case only, as the base-16 reader of bignumber.js wants
    them. *)
Definition uniformCase (s : list ascii) : bool :=
  forallb isLower s || forallb isUpper s.

(** Base-16 digits of [n], least significant first; never empty when there
    is fuel. *)
Fixpoint digitsLE (fuel : nat) (n : N) : list N :=
  match fuel with
  | O => []
  | S fuel' =>
      if n <? 16 then [n] else (n mod 16) :: digitsLE fuel' (n / 16)
  end.

(** [n.toString(16)] of a non-negative integer. *)
Definition ofN (n : N) : list ascii :=
  map digitChar (rev (digitsLE (S (N.to_nat (N.size n))) n)).

(** Reads a digit string most significant digit first, from [acc]. *)
Fixpoint parse (acc : N) (s : list ascii) : option N :=
  match s with
  | [] => Some acc
  | c :: s' =>
      match digitOf c with
      | Some d => parse (16 * acc + d) s'
      | None => None
      end
  end.

(** Value of a list of digits given least significant first. *)
Fixpoint evalLE (ds : list N) : N :=
  match ds with
  | [] => 0
  | d :: ds' => d + 16 * evalLE ds'
  end.

End Hex.

(** ** Decimal digits *)

Module Dec.

Definition digitChar (d : N) : ascii := ascii_of_N (48 + d).

(** Base-10 digits of [n], least significant first. *)
Fixpoint digitsLE (fuel : nat) (n : N) : list N :=
  match fuel with
  | O => []
  | S fuel' =>
      if n <? 10 then [n] else (n mod 10) :: digitsLE fuel' (n / 10)
  end.

(** The decimal numeral of a non-negative integer. *)
Definition ofN (n : N) : list ascii :=
  map digitChar (rev (digitsLE (S (N.to_nat (N.size n))) n)).

(** Value of a list of digits given least significant first. *)
Fixpoint evalLE (ds : list N) : N :=
  match ds with
  | [] => 0
  | d :: ds' => d + 10 * evalLE ds'
  end.

End Dec.

(** ** Node's Buffer *)

Module Buffer.

(** A byte from an integer, reduced modulo 256 as a typed array does. *)
Definition byteOf (n : N) : byte :=
  match Byte.of_N (n mod 256) with
  | Some b => b
  | None => x00
  end.

(** [Buffer.from(s, 'hex')]: two digits per byte, stopping at the first
    pair that is not two hexadecimal digits. *)
Fixpoint fromHex (s : list ascii) : list byte :=
  match s with
  | c1 :: c2 :: s' =>
      match Hex.digitOf c1, Hex.digitOf c2 with
      | Some d1, Some d2 => byteOf (16 * d1 + d2) :: fromHex s'
      | _, _ => []
      end
  | _ => []
  end.

(** [Buffer.from(s)] of a string whose characters are single bytes. *)
Definition fromString (s : list ascii) : list byte := map byte_of_ascii s.

(** The integer a byte sequence spells, most significant byte first. *)
Definition valueBE (bytes : list byte) : N :=
  fold_left (fun acc b => 256 * acc + Byte.to_N b) bytes 0.

(** No leading zero byte. *)
Definition minimal (bytes : list byte) : bool :=
  match bytes with
  | [] => true
  | b :: _ => negb (Byte.eqb b x00)
  end.

End Buffer.

(** ** Native numbers *)

Module Number.

(** A JavaScript number.  All that [new BigNumber(n)] reads of a finite
    number is its sign (so that [-0] is told from [0]) and the decimal
    numeral that [String(n)] prints; a finite number is modelled by that
    numeral, [c * 10^e] with a sign.  A number is an integer exactly when
    its numeral is one. *)
Inductive t :=
| NaN
| Infinity (neg : bool)
| Finite (neg : bool) (c : N) (e : Z).

Definition ofN (n : N) : t := Finite false n 0.

(** [Number.isInteger(x)] *)
Definition isInteger (x : t) : bool :=
  match x with
  | Finite _ c e =>
      if (0 <=? e)%Z then true else c mod 10 ^ Z.to_N (- e) =? 0
  | _ => false
  end.

(** [x >= 0]; [-0 >= 0] holds. *)
Definition geZero (x : t) : bool :=
  match x with
  | NaN => false
  | Infinity neg => negb neg
  | Finite neg c _ => negb neg || (c =? 0)
  end.

End Number.

(** ** bignumber.js *)

Module BigNumber.

(** A BigNumber is NaN, an infinity, or a signed decimal [c * 10^e]; zero
    keeps its sign.  The library's default configuration is assumed
    throughout ([DEBUG] unset, so no constructor throws). *)
Inductive t :=
| NaN
| Infinity (neg : bool)
| Finite (neg : bool) (c : N) (e : Z).

(** [new BigNumber(n)] of a native number. *)
Definition ofNumber (n : Number.t) : t :=
  match n with
  | Number.NaN => NaN
  | Number.Infinity neg => Infinity neg
  | Number.Finite neg c e => Finite neg c e
  end.

(** [new BigNumber(s)] of a string: the library's reader, which returns NaN
    on what it cannot read.  U256 relies on one fact about it: a ["0x"]
    followed by one or more hexadecimal digits, all of one case, reads as
    the integer the digits spell. *)
Class Parser := {
  ofString : list ascii -> t;
  ofString_hex : forall ds n,
    ds <> [] -> Hex.uniformCase ds = true -> Hex.parse 0 ds = Some n ->
    ofString (str "0x" ++ ds) = Finite false n 0
}.

(** [x.isInteger()] *)
Definition isInteger (x : t) : bool :=
  match x with
  | Finite _ c e =>
      if (0 <=? e)%Z then true else c mod 10 ^ Z.to_N (- e) =? 0
  | _ => false
  end.

(** [x.isNegative()]: the sign alone, so [-0] is negative. *)
Definition isNegative (x : t) : bool :=
  match x with
  | NaN => false
  | Infinity neg => neg
  | Finite neg _ _ => neg
  end.

(** The digits of [|x|] before the decimal point, as a number. *)
Definition magnitude (x : t) : N :=
  match x with
  | Finite _ c e =>
      if (0 <=? e)%Z then c * 10 ^ Z.to_N e else c / 10 ^ Z.to_N (- e)
  | _ => 0
  end.

(** The signed coefficient of [x] at the exponent [m <= e]. *)
Definition scaled (neg : bool) (c : N) (e m : Z) : Z :=
  ((if neg then -1 else 1) * (Z.of_N c * 10 ^ (e - m)))%Z.

(** The library's [compare]: [None] stands for its [null], when either side
    is NaN; zeros of either sign are equal. *)
Definition compare (x y : t) : option comparison :=
  match x, y with
  | NaN, _ | _, NaN => None
  | Infinity a, Infinity b =>
      Some (if a then (if b then Eq else Lt) else (if b then Gt else Eq))
  | Infinity a, Finite _ _ _ => Some (if a then Lt else Gt)
  | Finite _ _ _, Infinity b => Some (if b then Gt else Lt)
  | Finite s1 c1 e1, Finite s2 c2 e2 =>
      let m := Z.min e1 e2 in
      Some (Z.compare (scaled s1 c1 e1 m) (scaled s2 c2 e2 m))
  end.

(** [x.isLessThanOrEqualTo(y)] *)
Definition isLessThanOrEqualTo (x y : t) : bool :=
  match compare x y with
  | Some Lt | Some Eq => true
  | _ => false
  end.

(** [x.isEqualTo(y)] *)
Definition isEqualTo (x y : t) : bool :=
  match compare x y with
  | Some Eq => true
  | _ => false
  end.

(** [x.plus(y)]: exact.  A zero sum is [-0] only when both terms are. *)
Definition plus (x y : t) : t :=
  match x, y with
  | NaN, _ | _, NaN => NaN
  | Infinity a, Infinity b => if Bool.eqb a b then Infinity a else NaN
  | Infinity a, Finite _ _ _ => Infinity a
  | Finite _ _ _, Infinity b => Infinity b
  | Finite s1 c1 e1, Finite s2 c2 e2 =>
      let m := Z.min e1 e2 in
      let z := (scaled s1 c1 e1 m + scaled s2 c2 e2 m)%Z in
      Finite (if (z =? 0)%Z then s1 && s2 else (z <? 0)%Z) (Z.abs_N z) m
  end.

(** [x.toString(16)].  For an integer these are its hexadecimal digits, with
    a minus sign when it is negative and not zero.  For a value with a
    fractional part the library goes on with a point and fraction digits;
    U256 asks for the string only behind [isInteger()], and only the digits
    before the point are given here. *)
Definition toString16 (x : t) : list ascii :=
  match x with
  | NaN => str "NaN"
  | Infinity neg => if neg then str "-Infinity" else str "Infinity"
  | Finite neg _ _ =>
      let n := magnitude x in
      (if neg && negb (n =? 0) then str "-" else []) ++ Hex.ofN n
  end.

(** [x.toString(10)], with the base given: never in exponential notation.
    As for base 16, only the digits before the point are given for a value
    with a fractional part. *)
Definition toString10 (x : t) : list ascii :=
  match x with
  | NaN => str "NaN"
  | Infinity neg => if neg then str "-Infinity" else str "Infinity"
  | Finite neg _ _ =>
      let n := magnitude x in
      (if neg && negb (n =? 0) then str "-" else []) ++ Dec.ofN n
  end.

(** *** A reader for the concrete examples

    It covers the decimal literals the library's [isNumeric] pattern accepts
    (an optional minus sign, digits with an optional point, or a point and
    digits, and an optional exponent), [0x] integers and the words NaN and
    Infinity; everything else reads as NaN.  The theorems below hold for any
    [Parser]; this one gives them an instance to run on. *)

Fixpoint spanDigits (s : list ascii) : list ascii * list ascii :=
  match s with
  | c :: s' =>
      if Hex.isDecimal c
      then let (ds, rest) := spanDigits s' in (c :: ds, rest)
      else ([], s)
  | [] => ([], [])
  end.

Definition decimalValue (ds : list ascii) : N :=
  fold_left (fun acc c => 10 * acc + (N_of_ascii c - 48)) ds 0.

Definition isE (c : ascii) : bool :=
  Ascii.eqb c "e" || Ascii.eqb c "E".

(** The optional exponent part and the end of the literal. *)
Definition readExponent (s : list ascii) : option Z :=
  match s with
  | [] => Some 0%Z
  | c :: s' =>
      if isE c then
        let (sign, s'') :=
          match s' with
          | d :: r =>
              if Ascii.eqb d "-" then ((-1)%Z, r)
              else if Ascii.eqb d "+" then (1%Z, r) else (1%Z, s')
          | [] => (1%Z, s')
          end in
        match spanDigits s'' with
        | ((_ :: _) as ds, []) => Some (sign * Z.of_N (decimalValue ds))%Z
        | _ => None
        end
      else None
  end.

Definition takeSign (s : list ascii) : bool * list ascii :=
  match s with
  | c :: s' => if Ascii.eqb c "-" then (true, s') else (false, s)
  | [] => (false, s)
  end.

Definition readDecimal (s : list ascii) : option t :=
  let (neg, s1) := takeSign s in
  let (ip, s2) := spanDigits s1 in
  let (fp, s3) :=
    match s2 with
    | c :: r => if Ascii.eqb c "." then spanDigits r else ([], s2)
    | [] => ([], s2)
    end in
  match ip, fp with
  | [], [] => None
  | _, _ =>
      match readExponent s3 with
      | Some x =>
          Some (Finite neg (decimalValue (ip ++ fp))
                  (x - Z.of_nat (List.length fp)))
      | None => None
      end
  end.

Definition readHex (s : list ascii) : option t :=
  let (neg, s1) := takeSign s in
  match s1 with
  | z :: x :: ds =>
      if Ascii.eqb z "0" && (Ascii.eqb x "x" || Ascii.eqb x "X")
         && negb (List.length ds =? 0)%nat && Hex.uniformCase ds
      then option_map (fun n => Finite neg n 0) (Hex.parse 0 ds)
      else None
  | _ => None
  end.

Definition readWord (s : list ascii) : option t :=
  let (neg, s1) := takeSign s in
  if list_eq_dec ascii_dec s1 (str "Infinity") then Some (Infinity neg)
  else if list_eq_dec ascii_dec s1 (str "NaN") then Some NaN
  else None.

Definition read (s : list ascii) : t :=
  match readDecimal s with
  | Some x => x
  | None =>
      match readWord s with
      | Some x => x
      | None =>
          match readHex s with
          | Some x => x
          | None => NaN
          end
      end
  end.

End BigNumber.

(** ** The rlp package *)

Module RLP.

(** What [U256.toEncodeObject] hands to [RLP.encode]: a string or a
    non-negative integer. *)
Inductive input :=
| Str (s : list ascii)
| Int (n : N).

Definition isHexPrefixed (s : list ascii) : bool :=
  match s with
  | c1 :: c2 :: _ => Ascii.eqb c1 "0" && Ascii.eqb c2 "x"
  | _ => false
  end.

Definition stripHexPrefix (s : list ascii) : list ascii :=
  if isHexPrefixed s then skipn 2 s else s.

Definition padToEven (a : list ascii) : list ascii :=
  if Nat.odd (List.length a) then "0"%char :: a else a.

Definition intToHex (i : N) : list ascii :=
  let hex := Hex.ofN i in
  if Nat.odd (List.length hex) then "0"%char :: hex else hex.

Definition intToBuffer (i : N) : list byte := Buffer.fromHex (intToHex i).

Definition toBuffer (v : input) : list byte :=
  match v with
  | Str s =>
      if isHexPrefixed s
      then Buffer.fromHex (padToEven (stripHexPrefix s))
      else Buffer.fromString s
  | Int n => if n =? 0 then [] else intToBuffer n
  end.

Definition encodeLength (len offset : N) : list byte :=
  if len <? 56 then [Buffer.byteOf (len + offset)]
  else
    let hexLength := intToHex len in
    let lLength := N.of_nat (List.length hexLength) / 2 in
    let firstByte := intToHex (offset + 55 + lLength) in
    Buffer.fromHex (firstByte ++ hexLength).

(** [RLP.encode] of one item: a single byte below 128 is its own encoding,
    anything else follows its length. *)
Definition encode (v : input) : list byte :=
  let input := toBuffer v in
  match input with
  | [b] =>
      if Byte.to_N b <? 128 then input else encodeLength 1 128 ++ input
  | _ => encodeLength (N.of_nat (List.length input)) 128 ++ input
  end.

End RLP.

(** ** U256 *)

Module U256.

Record t := mk { value : BigNumber.t }.

(** The argument of the constructor: [number | string | BigNumber].

    [VBigNumber] is an instance of the [BigNumber] class this module
    imports, the one [instanceof BigNumber] recognises.  [VObject] is any
    other object that has the type: a BigNumber, or a U256, made by another
    copy of its class.  [instanceof] fails on it and its type is "object";
    [new BigNumber] reads it through [String(value)], the string it
    carries here. *)
Inductive Value :=
| VNumber (n : Number.t)
| VString (s : list ascii)
| VBigNumber (b : BigNumber.t)
| VObject (s : list ascii).

(** The argument of [check] and [ensure]:
    [U256 | string | number | BigNumber].  [PU256] is an instance of this
    class, the one [instanceof U256] recognises. *)
Inductive Param :=
| PU256 (u : t)
| PValue (v : Value).

(** The four [Error]s the class throws, by message. *)
Inductive Error :=
| MustBePositiveInteger    (* U256 must be a positive integer but found ... *)
| OutOfRange               (* Given value is out of range for U256 *)
| BufferTooLong            (* Buffer for U256 must be less than or equal to 32 *)
| InvalidRLP.              (* Invalid RLP for U256: ... *)

Inductive result (A : Type) :=
| Return (a : A)
| Throw (e : Error).

Arguments Return {A} a.
Arguments Throw {A} e.

Definition returns {A : Type} (r : result A) : bool :=
  match r with
  | Return _ => true
  | Throw _ => false
  end.

(** One byte of the payload as [fromBytes] writes it: two lowercase digits. *)
Definition byteHex (b : byte) : list ascii :=
  let n := Byte.to_N b in
  if n <? 0x10 then "0"%char :: Hex.ofN n else Hex.ofN n.

Section WithParser.

Context {parser : BigNumber.Parser}.

(** [new BigNumber(value)] *)
Definition toBigNumber (v : Value) : BigNumber.t :=
  match v with
  | VNumber n => BigNumber.ofNumber n
  | VString s => BigNumber.ofString s
  | VBigNumber b => b
  | VObject s => BigNumber.ofString s
  end.

Definition MAX_VALUE : BigNumber.t :=
  BigNumber.ofString
    (str "0xFFFFFFFFFFFFFFFFFFFFFFFFFFFFFFFFFFFFFFFFFFFFFFFFFFFFFFFFFFFFFFFF").

Definition constructor (v : Value) : result t :=
  let value := toBigNumber v in
  if negb (BigNumber.isInteger value) || BigNumber.isNegative value then
    Throw MustBePositiveInteger
  else if (64 <? List.length (BigNumber.toString16 value))%nat then
    Throw OutOfRange
  else Return (mk value).

Definition fromBytes (buffer : list byte) : result t :=
  match buffer with
  | [] =>
      (* shift() gives undefined and length is NaN: NaN > 32 is false and
         bytes.length !== NaN is true *)
      Throw InvalidRLP
  | first :: bytes =>
      let length := (Z.of_N (Byte.to_N first) - 0x80)%Z in
      if (32 <? length)%Z then Throw BufferTooLong
      else if negb (Z.of_nat (List.length bytes) =? length)%Z then
        Throw InvalidRLP
      else if (length =? 0)%Z then constructor (VNumber (Number.ofN 0))
      else constructor (VString (str "0x" ++ List.concat (map byteHex bytes)))
  end.

Definition checkString (param : Param) : bool :=
  match param with
  | PValue (VString s) =>
      let num := BigNumber.ofString s in
      BigNumber.isInteger num
      && negb (BigNumber.isNegative num)
      && BigNumber.isLessThanOrEqualTo num MAX_VALUE
  | _ => false  (* typeof param !== "string" *)
  end.

Definition check (param : Param) : result bool :=
  match param with
  | PU256 _ => Return true
  | PValue (VBigNumber b) =>
      Return (BigNumber.isInteger b
              && negb (BigNumber.isNegative b)
              && BigNumber.isLessThanOrEqualTo b MAX_VALUE)
  | PValue (VNumber n) => Return (Number.isInteger n && Number.geZero n)
  | _ => Return (checkString param)
  end.

Definition ensure (param : Param) : result t :=
  match param with
  | PU256 u => Return u
  | PValue v => constructor v
  end.

Definition increase (this : t) : result t :=
  constructor
    (VBigNumber
       (BigNumber.plus (value this) (BigNumber.ofNumber (Number.ofN 1)))).

Definition toEncodeObject (this : t) : RLP.input :=
  let hex := BigNumber.toString16 (value this) in
  if list_eq_dec ascii_dec hex (str "0") then RLP.Int 0
  else if Nat.even (List.length hex) then RLP.Str (str "0x" ++ hex)
  else RLP.Str (str "0x0" ++ hex).

Definition rlpBytes (this : t) : list byte :=
  RLP.encode (toEncodeObject this).

Definition isEqualTo (this rhs : t) : bool :=
  BigNumber.isEqualTo (value this) (value rhs).

(** The instances the public operations hand out.  [ensure] passes an
    instance through, which some operation handed out before. *)
Inductive Produced : t -> Prop :=
| by_constructor (v : Value) (u : t) :
    constructor v = Return u -> Produced u
| by_fromBytes (buffer : list byte) (u : t) :
    fromBytes buffer = Return u -> Produced u
| by_ensure (param : Param) (u : t) :
    (forall u0, param = PU256 u0 -> Produced u0) ->
    ensure param = Return u -> Produced u
| by_increase (this u : t) :
    Produced this -> increase this = Return u -> Produced u.

End WithParser.

(** The argument of [toString]: [10 | 16], or left out. *)
Inductive Base :=
| Base10
| Base16.

(** [toString(base)]: [this.value.toString(base || 10)]. *)
Definition toString (this : t) (base : option Base) : list ascii :=
  match base with
  | Some Base16 => BigNumber.toString16 (value this)
  | Some Base10 | None => BigNumber.toString10 (value this)
  end.

(** The value of a valid instance. *)
Definition toN (u : t) : N := BigNumber.magnitude (value u).

(** I1 and I2: the value is an integer with [0 <= value <= 2^256 - 1]. *)
Definition inRange (u : t) : bool :=
  BigNumber.isInteger (value u)
  && negb (BigNumber.isNegative (value u))
  && (toN u <=? 2 ^ 256 - 1).

End U256.

(** * Facts *)

(** ** Hexadecimal digits *)

Module HexFacts.
Import Hex.

Lemma below16_cases (d : N) :
  d < 16 ->
  In d [0; 1; 2; 3; 4; 5; 6; 7; 8; 9; 10; 11; 12; 13; 14; 15].
Proof.
  intros H. simpl.
  destruct d as [|p]; [now left|].
  do 4 (destruct p as [p|p|]; try lia; auto 20).
Qed.

(** Settles a goal about a digit [d < 16] by running it on all sixteen. *)
Ltac each_digit H :=
  apply below16_cases in H; simpl in H;
  repeat (destruct H as [<-|H]; [reflexivity|]); contradiction.

Lemma digitOf_digitChar (d : N) :
  d < 16 -> digitOf (digitChar d) = Some d.
Proof. intros H. each_digit H. Qed.

Lemma isLower_digitChar (d : N) : d < 16 -> isLower (digitChar d) = true.
Proof. intros H. each_digit H. Qed.

(** A lowercase digit is the character of its own value. *)
Lemma isLower_inv (c : ascii) :
  isLower c = true ->
  exists d, digitOf c = Some d /\ d < 16 /\ digitChar d = c.
Proof.
  destruct c as [[] [] [] [] [] [] [] []]; intros H;
    try discriminate H;
    (eexists; split; [reflexivity | split; reflexivity]).
Qed.

Lemma parse_app (s1 s2 : list ascii) : forall acc,
  parse acc (s1 ++ s2) =
  match parse acc s1 with
  | Some acc' => parse acc' s2
  | None => None
  end.
Proof.
  induction s1 as [|c s1 IH]; intros acc; simpl; [reflexivity|].
  destruct (digitOf c); [apply IH | reflexivity].
Qed.

(** Reading back digits written most significant first. *)
Lemma parse_rev_digits (ds : list N) : forall acc,
  Forall (fun d => d < 16) ds ->
  parse acc (map digitChar (rev ds)) =
  Some (acc * 16 ^ N.of_nat (List.length ds) + evalLE ds).
Proof.
  induction ds as [|d ds IH]; intros acc Hds.
  - simpl. f_equal. lia.
  - inversion Hds as [|? ? Hd Hds']; subst.
    cbn [rev]. rewrite map_app, parse_app, IH by assumption.
    cbn [map parse]. rewrite digitOf_digitChar by assumption.
    f_equal. cbn [List.length evalLE].
    rewrite Nat2N.inj_succ, N.pow_succ_r'. ring.
Qed.

Lemma digitsLE_below16 (fuel : nat) : forall n,
  Forall (fun d => d < 16) (digitsLE fuel n).
Proof.
  induction fuel as [|fuel IH]; intros n; simpl; [constructor|].
  destruct (N.ltb_spec n 16).
  - constructor; [assumption | constructor].
  - constructor; [apply N.mod_lt; lia | apply IH].
Qed.

Lemma digitsLE_eval (fuel : nat) : forall n,
  n < 16 ^ N.of_nat fuel -> evalLE (digitsLE fuel n) = n.
Proof.
  induction fuel as [|fuel IH]; intros n Hn.
  - change (16 ^ N.of_nat 0) with 1 in Hn. cbn [digitsLE evalLE]. lia.
  - cbn [digitsLE]. destruct (N.ltb_spec n 16); cbn [evalLE]; [lia|].
    rewrite IH.
    + pose proof (N.div_mod n 16). lia.
    + rewrite Nat2N.inj_succ, N.pow_succ_r' in Hn.
      apply N.Div0.div_lt_upper_bound; lia.
Qed.

Lemma digitsLE_nonempty (fuel : nat) (n : N) : digitsLE (S fuel) n <> [].
Proof. cbn [digitsLE]. destruct (n <? 16); discriminate. Qed.

(** With enough fuel, [n] has at most [k] digits exactly when [n < 16^k]. *)
Lemma digitsLE_length (fuel : nat) : forall n k,
  n < 16 ^ N.of_nat (S fuel) ->
  ((List.length (digitsLE (S fuel) n) <= S k)%nat <->
   n < 16 ^ N.of_nat (S k)).
Proof.
  induction fuel as [|fuel IH]; intros n k Hn.
  - assert (H16 : 16 ^ N.of_nat 1 <= 16 ^ N.of_nat (S k))
      by (apply N.pow_le_mono_r; lia).
    change (16 ^ N.of_nat 1) with 16 in *.
    cbn [digitsLE]. destruct (N.ltb_spec n 16); [|lia].
    cbn [List.length]. split; intros; lia.
  - assert (H16 : 16 ^ N.of_nat 1 <= 16 ^ N.of_nat (S k))
      by (apply N.pow_le_mono_r; lia).
    change (16 ^ N.of_nat 1) with 16 in H16.
    remember (S fuel) as f eqn:Ef.
    cbn [digitsLE]. destruct (N.ltb_spec n 16) as [Hlt|Hge].
    + cbn [List.length]. split; intros; lia.
    + cbn [List.length].
      assert (Hdiv : n / 16 < 16 ^ N.of_nat f).
      { rewrite Nat2N.inj_succ, N.pow_succ_r' in Hn.
        apply N.Div0.div_lt_upper_bound; lia. }
      destruct k as [|k].
      * split; [|change (16 ^ N.of_nat 1) with 16; lia].
        intros Hlen. subst f.
        pose proof (@digitsLE_nonempty fuel (n / 16)) as Hne.
        destruct (digitsLE (S fuel) (n / 16));
          [congruence | cbn [List.length] in Hlen; lia].
      * subst f. rewrite <- Nat.succ_le_mono, (IH (n / 16) k Hdiv).
        rewrite (Nat2N.inj_succ (S k)), N.pow_succ_r'.
        pose proof (N.div_mod n 16) as Hdm.
        pose proof (N.mod_lt n 16).
        split; intros Hk.
        -- nia.
        -- apply N.Div0.div_lt_upper_bound; lia.
Qed.

Lemma size_fuel (n : N) : n < 16 ^ N.of_nat (S (N.to_nat (N.size n))).
Proof.
  rewrite Nat2N.inj_succ, N2Nat.id.
  apply N.lt_le_trans with (2 ^ N.size n); [apply N.size_gt|].
  apply N.le_trans with (16 ^ N.size n).
  - apply N.pow_le_mono_l. lia.
  - apply N.pow_le_mono_r; lia.
Qed.

(** [parseInt(n.toString(16), 16) = n] *)
Theorem parse_ofN (n : N) : parse 0 (ofN n) = Some n.
Proof.
  unfold ofN. rewrite parse_rev_digits by apply digitsLE_below16.
  rewrite digitsLE_eval by apply size_fuel. reflexivity.
Qed.

(** The number of digits of [n.toString(16)]. *)
Theorem ofN_length (n : N) (k : nat) :
  (List.length (ofN n) <= S k)%nat <-> n < 16 ^ N.of_nat (S k).
Proof.
  unfold ofN. rewrite length_map, length_rev.
  apply digitsLE_length, size_fuel.
Qed.

Lemma ofN_lower (n : N) : forallb isLower (ofN n) = true.
Proof.
  unfold ofN. apply forallb_forall. intros c Hc.
  apply in_map_iff in Hc as [d [<- Hd]].
  apply isLower_digitChar. apply in_rev in Hd.
  pose proof (digitsLE_below16 (S (N.to_nat (N.size n))) n) as HF.
  rewrite Forall_forall in HF. now apply HF.
Qed.

Lemma ofN_nonempty (n : N) : ofN n <> [].
Proof.
  unfold ofN. intros H. apply map_eq_nil in H.
  apply (f_equal (@rev N)) in H. rewrite rev_involutive in H.
  now apply digitsLE_nonempty in H.
Qed.

(** [hex === "0"] tests for zero. *)
Lemma ofN_zero (n : N) : ofN n = str "0" <-> n = 0.
Proof.
  split; intros H; [|subst; reflexivity].
  pose proof (parse_ofN n) as Hp. rewrite H in Hp.
  simpl in Hp. congruence.
Qed.

Lemma uniformCase_lower (s : list ascii) :
  forallb isLower s = true -> uniformCase s = true.
Proof. intros H. unfold uniformCase. now rewrite H. Qed.

End HexFacts.

(** ** Buffers and their hexadecimal spelling *)

Module BufferFacts.
Import Hex HexFacts Buffer.

Lemma byteOf_to_N (n : N) : n < 256 -> Byte.to_N (byteOf n) = n.
Proof.
  intros H. unfold byteOf. rewrite N.mod_small by assumption.
  destruct (Byte.of_N n) as [b|] eqn:E.
  - now apply Byte.to_of_N.
  - apply Byte.of_N_None_iff in E. lia.
Qed.

Lemma to_N_lt (b : byte) : Byte.to_N b < 256.
Proof. pose proof (Byte.to_N_bounded b). lia. Qed.

(** Every byte is written with exactly two lowercase digits. *)
Lemma byteHex_digits (b : byte) :
  U256.byteHex b =
  [digitChar (Byte.to_N b / 16); digitChar (Byte.to_N b mod 16)].
Proof. destruct b; reflexivity. Qed.

Lemma parse_byteHex (b : byte) (s : list ascii) (acc : N) :
  parse acc (U256.byteHex b ++ s) = parse (256 * acc + Byte.to_N b) s.
Proof.
  rewrite byteHex_digits. cbn [app parse].
  pose proof (to_N_lt b) as Hb.
  rewrite !digitOf_digitChar;
    [| apply N.mod_lt; lia | apply N.Div0.div_lt_upper_bound; lia].
  f_equal. pose proof (N.div_mod (Byte.to_N b) 16). lia.
Qed.

(** The digits [fromBytes] joins spell the payload as a big-endian
    integer. *)
Lemma parse_payload (bytes : list byte) : forall acc,
  parse acc (List.concat (map U256.byteHex bytes)) =
  Some (fold_left (fun a b => 256 * a + Byte.to_N b) bytes acc).
Proof.
  induction bytes as [|b bytes IH]; intros acc; [reflexivity|].
  cbn [map List.concat fold_left]. now rewrite parse_byteHex, IH.
Qed.

Lemma payload_lower (bytes : list byte) :
  forallb isLower (List.concat (map U256.byteHex bytes)) = true.
Proof.
  induction bytes as [|b bytes IH]; [reflexivity|].
  cbn [map List.concat]. rewrite forallb_app, IH, byteHex_digits.
  pose proof (to_N_lt b) as Hb. cbn [forallb].
  rewrite !isLower_digitChar;
    [reflexivity | apply N.mod_lt; lia
    | apply N.Div0.div_lt_upper_bound; lia].
Qed.

Lemma payload_length (bytes : list byte) :
  List.length (List.concat (map U256.byteHex bytes)) =
  (2 * List.length bytes)%nat.
Proof.
  induction bytes as [|b bytes IH]; [reflexivity|].
  cbn [map List.concat]. rewrite length_app, IH, byteHex_digits.
  cbn [List.length]. lia.
Qed.

Lemma valueBE_bound (bytes : list byte) : forall acc,
  fold_left (fun a b => 256 * a + Byte.to_N b) bytes acc <
  (acc + 1) * 256 ^ N.of_nat (List.length bytes).
Proof.
  induction bytes as [|b bytes IH]; intros acc.
  - cbn [fold_left List.length]. change (256 ^ N.of_nat 0) with 1. lia.
  - cbn [fold_left List.length]. rewrite Nat2N.inj_succ, N.pow_succ_r'.
    eapply N.lt_le_trans; [apply IH|].
    pose proof (to_N_lt b).
    rewrite N.mul_assoc. apply N.mul_le_mono_r. lia.
Qed.

(** Induction two characters at a time. *)
Lemma pair_ind (A : Type) (P : list A -> Prop) :
  P [] -> (forall a, P [a]) ->
  (forall a b l, P l -> P (a :: b :: l)) ->
  forall l, P l.
Proof.
  intros H0 H1 H2.
  fix IH 1. intros [|a [|b l]]; [exact H0 | apply H1 | apply H2, IH].
Qed.

(** [Buffer.from(s, 'hex')] of an even number of lowercase digits loses
    nothing: written back byte by byte it is [s] again. *)
Lemma fromHex_spelling (s : list ascii) :
  forallb isLower s = true -> Nat.even (List.length s) = true ->
  List.concat (map U256.byteHex (fromHex s)) = s /\
  (2 * List.length (fromHex s))%nat = List.length s.
Proof.
  induction s as [|a|a b s IH] using pair_ind; intros Hl He.
  - split; reflexivity.
  - discriminate He.
  - cbn [forallb] in Hl.
    apply andb_prop in Hl as [Ha Hl]. apply andb_prop in Hl as [Hb Hl].
    destruct (isLower_inv _ Ha) as [d1 [E1 [L1 C1]]].
    destruct (isLower_inv _ Hb) as [d2 [E2 [L2 C2]]].
    destruct (IH Hl He) as [IH1 IH2].
    cbn [fromHex]. rewrite E1, E2. cbn [map List.concat List.length].
    rewrite IH1, byteHex_digits, byteOf_to_N by lia.
    replace ((16 * d1 + d2) / 16) with d1
      by (apply N.div_unique with d2; lia).
    replace ((16 * d1 + d2) mod 16) with d2
      by (apply N.mod_unique with d1; lia).
    rewrite C1, C2. split; [reflexivity | lia].
Qed.

End BufferFacts.

(** ** Integers among the BigNumbers *)

Module BigNumberFacts.
Import BigNumber.

Lemma isInteger_finite (x : t) :
  isInteger x = true -> exists neg c e, x = Finite neg c e.
Proof. destruct x; try discriminate. eauto. Qed.

(** The coefficient of an integer, moved to a common exponent with a number
    of exponent 0. *)
Lemma integer_scaled (neg : bool) (c : N) (e : Z) :
  isInteger (Finite neg c e) = true ->
  (Z.of_N c * 10 ^ (e - Z.min e 0) =
   Z.of_N (magnitude (Finite neg c e)) * 10 ^ (- Z.min e 0))%Z.
Proof.
  cbn [isInteger magnitude]. destruct (Z.leb_spec 0 e) as [He|He]; intros Hi.
  - rewrite Z.min_r by lia. rewrite Z.sub_0_r. cbn [Z.opp].
    rewrite N2Z.inj_mul, N2Z.inj_pow, Z2N.id by lia.
    change (Z.of_N 10) with 10%Z. rewrite Z.pow_0_r. ring.
  - rewrite Z.min_l by lia. rewrite Z.sub_diag, Z.pow_0_r, Z.mul_1_r.
    apply N.eqb_eq in Hi.
    set (P := 10 ^ Z.to_N (- e)) in *.
    assert (HP : Z.of_N P = (10 ^ (- e))%Z).
    { unfold P. rewrite N2Z.inj_pow, Z2N.id by lia. reflexivity. }
    rewrite <- HP, <- N2Z.inj_mul. f_equal.
    pose proof (N.div_mod c P) as Hdm.
    assert (P <> 0) by (unfold P; apply N.pow_nonzero; lia).
    rewrite Hi in Hdm. lia.
Qed.

(** Comparison with an integer constant is comparison of magnitudes. *)
Lemma compare_integer (x : t) (M : N) :
  isInteger x = true -> isNegative x = false ->
  compare x (Finite false M 0) = Some (magnitude x ?= M).
Proof.
  intros Hi Hn. destruct (isInteger_finite _ Hi) as [neg [c [e ->]]].
  cbn [isNegative] in Hn. subst neg.
  unfold compare, scaled. cbv zeta.
  rewrite (Z.mul_1_l (Z.of_N c * _)), (Z.mul_1_l (Z.of_N M * _)).
  change (0 - Z.min e 0)%Z with (- Z.min e 0)%Z.
  rewrite (integer_scaled false c e Hi).
  set (k := magnitude (Finite false c e)).
  assert (HT : (0 < 10 ^ (- Z.min e 0))%Z) by (apply Z.pow_pos_nonneg; lia).
  set (T := (10 ^ (- Z.min e 0))%Z) in *.
  f_equal.
  destruct (Z.compare_spec (Z.of_N k * T) (Z.of_N M * T));
    destruct (N.compare_spec k M); try reflexivity; exfalso; nia.
Qed.

Lemma isLessThanOrEqualTo_integer (x : t) (M : N) :
  isInteger x = true -> isNegative x = false ->
  isLessThanOrEqualTo x (Finite false M 0) = (magnitude x <=? M).
Proof.
  intros Hi Hn. unfold isLessThanOrEqualTo, N.leb.
  rewrite compare_integer by assumption.
  destruct (magnitude x ?= M); reflexivity.
Qed.

Lemma toString16_integer (x : t) :
  isInteger x = true -> isNegative x = false ->
  toString16 x = Hex.ofN (magnitude x).
Proof.
  intros Hi Hn. destruct (isInteger_finite _ Hi) as [neg [c [e ->]]].
  cbn [isNegative] in Hn. subst neg. reflexivity.
Qed.

(** The constructor's test on the number of hexadecimal digits is the
    bound [2^256 - 1]. *)
Lemma toString16_length (x : t) :
  isInteger x = true -> isNegative x = false ->
  (64 <? List.length (toString16 x))%nat =
  negb (magnitude x <=? 2 ^ 256 - 1).
Proof.
  intros Hi Hn. rewrite toString16_integer by assumption.
  pose proof (HexFacts.ofN_length (magnitude x) 63) as Hlen.
  change (16 ^ N.of_nat 64) with (2 ^ 256) in Hlen.
  assert (Hpos : 0 < 2 ^ 256) by reflexivity.
  destruct (Nat.ltb_spec 64 (List.length (Hex.ofN (magnitude x))));
    destruct (N.leb_spec (magnitude x) (2 ^ 256 - 1)); cbn [negb];
    try reflexivity; exfalso.
  - assert (magnitude x < 2 ^ 256) as Hm by lia. apply Hlen in Hm. lia.
  - assert (List.length (Hex.ofN (magnitude x)) <= 64)%nat as Hm by lia.
    apply Hlen in Hm. lia.
Qed.

(** Adding one to a non-negative integer. *)
Lemma plus_one (x : t) :
  isInteger x = true -> isNegative x = false ->
  let y := plus x (ofNumber (Number.ofN 1)) in
  isInteger y = true /\ isNegative y = false /\
  magnitude y = magnitude x + 1.
Proof.
  intros Hi Hn. destruct (isInteger_finite _ Hi) as [neg [c [e ->]]].
  cbn [isNegative] in Hn. subst neg.
  cbn [ofNumber Number.ofN plus]. unfold scaled. cbv zeta.
  rewrite (Z.mul_1_l (Z.of_N c * _)), (Z.mul_1_l (Z.of_N 1 * _)).
  change (0 - Z.min e 0)%Z with (- Z.min e 0)%Z.
  rewrite (integer_scaled false c e Hi).
  change (Z.of_N 1) with 1%Z. rewrite (Z.mul_1_l (10 ^ _)).
  set (k := magnitude (Finite false c e)).
  set (m := Z.min e 0).
  assert (Hm : (m <= 0)%Z) by (unfold m; lia).
  assert (HT : (0 < 10 ^ (- m))%Z) by (apply Z.pow_pos_nonneg; lia).
  set (T := Z.to_N (10 ^ (- m))).
  assert (HTZ : (10 ^ (- m))%Z = Z.of_N T) by (unfold T; rewrite Z2N.id; lia).
  assert (HTP : T = 10 ^ Z.to_N (- m)).
  { apply N2Z.inj. rewrite <- HTZ, N2Z.inj_pow, Z2N.id by lia. reflexivity. }
  assert (HT0 : T <> 0) by lia.
  rewrite HTZ.
  replace (Z.of_N k * Z.of_N T + Z.of_N T)%Z with (Z.of_N ((k + 1) * T))
    by (rewrite N2Z.inj_mul, N2Z.inj_add; change (Z.of_N 1) with 1%Z; ring).
  rewrite Zabs2N.id.
  assert (Hz : (0 < Z.of_N ((k + 1) * T))%Z) by nia.
  destruct (Z.eqb_spec (Z.of_N ((k + 1) * T)) 0); [lia|].
  destruct (Z.ltb_spec (Z.of_N ((k + 1) * T)) 0); [lia|].
  cbn [isInteger isNegative magnitude].
  destruct (Z.leb_spec 0 m) as [H0|H0].
  - assert (m = 0%Z) as Em by lia.
    assert (T = 1) as ET by (rewrite HTP, Em; reflexivity).
    rewrite ET, Em. change (10 ^ Z.to_N 0) with 1. repeat split. lia.
  - rewrite <- HTP. repeat split.
    + apply N.eqb_eq. apply N.Div0.mod_mul.
    + apply N.div_mul. assumption.
Qed.



End BigNumberFacts.

(** ** The reference reader *)

Module ReaderFacts.
Import BigNumber.

Lemma read_hex (ds : list ascii) (n : N) :
  ds <> [] -> Hex.uniformCase ds = true -> Hex.parse 0 ds = Some n ->
  read (str "0x" ++ ds) = Finite false n 0.
Proof.
  intros Hne Hu Hp. unfold read.
  change (readDecimal (str "0x" ++ ds)) with (@None t).
  change (readWord (str "0x" ++ ds)) with (@None t).
  cbn. destruct ds as [|d ds]; [congruence|].
  cbn [List.length Nat.eqb negb]. rewrite Hu, Hp. reflexivity.
Qed.

End ReaderFacts.

#[export] Instance reader : BigNumber.Parser :=
  {| BigNumber.ofString := BigNumber.read;
     BigNumber.ofString_hex := ReaderFacts.read_hex |}.

(** ** U256 *)

Module U256Facts.
Import U256 BigNumberFacts BufferFacts.

Section WithParser.

Context {parser : BigNumber.Parser}.

Lemma MAX_VALUE_eq : MAX_VALUE = BigNumber.Finite false (2 ^ 256 - 1) 0.
Proof.
  unfold MAX_VALUE.
  apply (BigNumber.ofString_hex
           (ds := str "FFFFFFFFFFFFFFFFFFFFFFFFFFFFFFFFFFFFFFFFFFFFFFFFFFFFFFFFFFFFFFFF"));
    [discriminate | reflexivity | reflexivity].
Qed.

(** The constructor, with its test on the digits read as a bound. *)
Lemma constructor_spec (v : Value) :
  constructor v =
  let x := toBigNumber v in
  if negb (BigNumber.isInteger x) || BigNumber.isNegative x
  then Throw MustBePositiveInteger
  else if negb (BigNumber.magnitude x <=? 2 ^ 256 - 1) then Throw OutOfRange
  else Return (mk x).
Proof.
  unfold constructor. cbv zeta.
  destruct (BigNumber.isInteger (toBigNumber v)) eqn:Hi; [|reflexivity].
  destruct (BigNumber.isNegative (toBigNumber v)) eqn:Hn; [reflexivity|].
  cbn [negb orb]. now rewrite toString16_length.
Qed.

Lemma constructor_Return (v : Value) (u : t) :
  constructor v = Return u ->
  value u = toBigNumber v /\ inRange u = true.
Proof.
  rewrite constructor_spec. cbv zeta. unfold inRange, toN.
  destruct (BigNumber.isInteger (toBigNumber v)) eqn:Hi; [|discriminate].
  destruct (BigNumber.isNegative (toBigNumber v)) eqn:Hn; [discriminate|].
  destruct (BigNumber.magnitude (toBigNumber v) <=? 2 ^ 256 - 1) eqn:Hm;
    [|discriminate].
  cbn [negb orb]. intros [= <-]. cbn [value].
  now rewrite Hi, Hn, Hm.
Qed.

Lemma constructor_integer (v : Value) (n : N) :
  toBigNumber v = BigNumber.Finite false n 0 -> n <= 2 ^ 256 - 1 ->
  constructor v = Return (mk (BigNumber.Finite false n 0)).
Proof.
  intros E Hn. rewrite constructor_spec, E. cbv zeta.
  cbn [BigNumber.isInteger BigNumber.isNegative BigNumber.magnitude
       Z.leb Z.compare negb orb].
  change (Z.to_N 0) with 0. rewrite N.pow_0_r, N.mul_1_r.
  apply N.leb_le in Hn. now rewrite Hn.
Qed.


(** A well-framed payload of 1 to 32 bytes decodes to the integer it
    spells, most significant byte first. *)
Lemma fromBytes_payload (first : byte) (bytes : list byte) :
  Byte.to_N first = 128 + N.of_nat (List.length bytes) ->
  (1 <= List.length bytes <= 32)%nat ->
  fromBytes (first :: bytes) =
  Return (mk (BigNumber.Finite false (Buffer.valueBE bytes) 0)).
Proof.
  intros Hfirst Hlen. unfold fromBytes. cbv zeta.
  replace (Z.of_N (Byte.to_N first) - 0x80)%Z
    with (Z.of_nat (List.length bytes)) by lia.
  destruct (Z.ltb_spec 32 (Z.of_nat (List.length bytes))); [lia|].
  rewrite Z.eqb_refl. cbn [negb].
  destruct (Z.eqb_spec (Z.of_nat (List.length bytes)) 0); [lia|].
  apply constructor_integer.
  - cbn [toBigNumber]. apply BigNumber.ofString_hex.
    + intros E. apply (f_equal (@List.length ascii)) in E.
      rewrite payload_length in E. cbn in E. lia.
    + apply HexFacts.uniformCase_lower, payload_lower.
    + apply parse_payload.
  - pose proof (valueBE_bound bytes 0) as Hb. unfold Buffer.valueBE.
    assert (256 ^ N.of_nat (List.length bytes) <= 256 ^ 32)
      by (apply N.pow_le_mono_r; lia).
    change (256 ^ 32) with (2 ^ 256) in *.
    assert (0 < 2 ^ 256) by reflexivity. lia.
Qed.

(** A single byte below 128 is not framed and [fromBytes] refuses it. *)
Lemma fromBytes_bare_byte (b : byte) :
  Byte.to_N b < 128 -> fromBytes [b] = Throw InvalidRLP.
Proof.
  intros Hb. unfold fromBytes. cbv zeta.
  destruct (Z.ltb_spec 32 (Z.of_N (Byte.to_N b) - 0x80)); [lia|].
  cbn [List.length]. change (Z.of_nat 0) with 0%Z.
  destruct (Z.eqb_spec 0 (Z.of_N (Byte.to_N b) - 0x80)); [lia|reflexivity].
Qed.

(** *** Encoding *)

Lemma inRange_parts (u : t) :
  inRange u = true ->
  BigNumber.isInteger (value u) = true /\
  BigNumber.isNegative (value u) = false /\
  toN u <= 2 ^ 256 - 1.
Proof.
  unfold inRange. intros H.
  apply andb_prop in H as [H Hm]. apply andb_prop in H as [Hi Hn].
  apply negb_true_iff in Hn. apply N.leb_le in Hm. auto.
Qed.

Lemma toString16_inRange (u : t) :
  inRange u = true -> BigNumber.toString16 (value u) = Hex.ofN (toN u).
Proof.
  intros H. apply inRange_parts in H as [Hi [Hn _]].
  now apply toString16_integer.
Qed.

Lemma inRange_bound (u : t) : inRange u = true -> toN u < 2 ^ 256.
Proof.
  intros H. apply inRange_parts in H as [_ [_ Hm]].
  assert (0 < 2 ^ 256) by reflexivity. lia.
Qed.

(** Zero is handed to the codec as the number 0, which it encodes as the
    empty string. *)
Lemma rlpBytes_zero (u : t) :
  inRange u = true -> toN u = 0 -> rlpBytes u = [x80].
Proof.
  intros Hr Hz. unfold rlpBytes, toEncodeObject. cbv zeta.
  rewrite toString16_inRange, Hz by assumption. reflexivity.
Qed.

(** A positive value is handed over as its digits, padded to whole bytes;
    the codec's buffer then spells the value, in no more bytes than the
    value needs. *)
Lemma toBuffer_positive (u : t) :
  inRange u = true -> toN u <> 0 ->
  let bytes := RLP.toBuffer (toEncodeObject u) in
  Buffer.valueBE bytes = toN u /\
  (1 <= List.length bytes)%nat /\
  (forall k, toN u < 256 ^ N.of_nat (S k) -> (List.length bytes <= S k)%nat).
Proof.
  intros Hr Hz. unfold toEncodeObject. cbv zeta.
  rewrite toString16_inRange by assumption.
  set (hex := Hex.ofN (toN u)).
  destruct (list_eq_dec ascii_dec hex (str "0")) as [E|_];
    [apply HexFacts.ofN_zero in E; contradiction|].
  assert (Hlow : forallb Hex.isLower hex = true) by apply HexFacts.ofN_lower.
  assert (Hparse : Hex.parse 0 hex = Some (toN u))
    by apply HexFacts.parse_ofN.
  assert (Hlen : (1 <= List.length hex)%nat).
  { pose proof (HexFacts.ofN_nonempty (toN u)) as Hne. fold hex in Hne.
    destruct hex; [congruence | cbn [List.length]; lia]. }
  assert (Hpad : exists padded,
             RLP.toBuffer
               (if Nat.even (List.length hex) then RLP.Str (str "0x" ++ hex)
                else RLP.Str (str "0x0" ++ hex)) = Buffer.fromHex padded /\
             forallb Hex.isLower padded = true /\
             Nat.even (List.length padded) = true /\
             Hex.parse 0 padded = Some (toN u) /\
             (List.length hex <= List.length padded <= S (List.length hex))%nat).
  { destruct (Nat.even (List.length hex)) eqn:Hev.
    - exists hex. split; [|split; [|split; [|split]]]; try assumption.
      + cbn [RLP.toBuffer str list_ascii_of_string app RLP.isHexPrefixed
             Ascii.eqb Bool.eqb andb RLP.stripHexPrefix skipn].
        unfold RLP.padToEven. unfold Nat.odd. now rewrite Hev.
      + lia.
    - exists ("0"%char :: hex).
      assert (Hev' : Nat.even (List.length ("0"%char :: hex)) = true).
      { cbn [List.length]. rewrite Nat.even_succ. unfold Nat.odd.
        now rewrite Hev. }
      split; [|split; [|split; [|split]]]; try assumption.
      + cbn [RLP.toBuffer str list_ascii_of_string app RLP.isHexPrefixed
             Ascii.eqb Bool.eqb andb RLP.stripHexPrefix skipn].
        unfold RLP.padToEven. unfold Nat.odd. now rewrite Hev'.
      + cbn [List.length]. lia. }
  destruct Hpad as [padded [-> [Hl [He [Hp Hn]]]]].
  destruct (fromHex_spelling padded Hl He) as [Hs Hb].
  split; [|split].
  - pose proof (parse_payload (Buffer.fromHex padded) 0) as Hv.
    rewrite Hs, Hp in Hv. unfold Buffer.valueBE. congruence.
  - lia.
  - intros k Hk.
    assert (Hhex : (List.length hex <= S (S (2 * k)))%nat).
    { apply (HexFacts.ofN_length (toN u) (S (2 * k))).
      replace (N.of_nat (S (S (2 * k)))) with (2 * N.of_nat (S k)) by lia.
      now rewrite N.pow_mul_r. }
    lia.
Qed.

(** What [rlpBytes] returns for a positive value: the codec's framing of
    that buffer. *)
Lemma rlpBytes_positive (u : t) :
  inRange u = true -> toN u <> 0 ->
  exists bytes,
    Buffer.valueBE bytes = toN u /\
    (1 <= List.length bytes <= 32)%nat /\
    (toN u < 256 -> List.length bytes = 1%nat) /\
    rlpBytes u =
    if toN u <? 128 then bytes
    else Buffer.byteOf (N.of_nat (List.length bytes) + 128) :: bytes.
Proof.
  intros Hr Hz.
  destruct (toBuffer_positive u Hr Hz) as [Hv [H1 Hk]].
  set (bytes := RLP.toBuffer (toEncodeObject u)) in *.
  exists bytes.
  assert (H32 : (List.length bytes <= 32)%nat).
  { apply Hk. change (256 ^ N.of_nat 32) with (2 ^ 256).
    now apply inRange_bound. }
  split; [assumption | split; [lia | split]].
  { intros H256.
    assert (List.length bytes <= 1)%nat
      by (apply Hk; change (256 ^ N.of_nat 1) with 256; lia).
    lia. }
  unfold rlpBytes, RLP.encode. cbv zeta. fold bytes.
  destruct (N.ltb_spec (toN u) 128) as [Hlt|Hge].
  - assert (Hone : (List.length bytes <= 1)%nat)
      by (apply Hk; change (256 ^ N.of_nat 1) with 256; lia).
    destruct bytes as [|b [|b' bytes']]; cbn [List.length] in *; try lia.
    unfold Buffer.valueBE in Hv. cbn [fold_left] in Hv.
    destruct (N.ltb_spec (Byte.to_N b) 128); [reflexivity | lia].
  - assert (Hframe : RLP.encodeLength (N.of_nat (List.length bytes)) 128 =
                     [Buffer.byteOf (N.of_nat (List.length bytes) + 128)]).
    { unfold RLP.encodeLength.
      destruct (N.ltb_spec (N.of_nat (List.length bytes)) 56); [reflexivity|lia]. }
    destruct bytes as [|b [|b' bytes']].
    + cbn [List.length] in H1. lia.
    + unfold Buffer.valueBE in Hv. cbn [fold_left] in Hv.
      destruct (N.ltb_spec (Byte.to_N b) 128); [lia | reflexivity].
    + rewrite Hframe. reflexivity.
Qed.

(** *** Decoding what was encoded *)

(** Zero and every value from 128 up come back from their encoding. *)
Lemma fromBytes_rlpBytes (u : t) :
  inRange u = true -> toN u = 0 \/ 128 <= toN u ->
  fromBytes (rlpBytes u) = Return (mk (BigNumber.Finite false (toN u) 0)).
Proof.
  intros Hr [Hz|Hge].
  - rewrite rlpBytes_zero, Hz by assumption. reflexivity.
  - destruct (rlpBytes_positive u Hr) as [bytes [Hv [Hlen [_ ->]]]]; [lia|].
    destruct (N.ltb_spec (toN u) 128); [lia|].
    rewrite <- Hv. apply fromBytes_payload; [|assumption].
    rewrite byteOf_to_N; lia.
Qed.

(** *** check and the constructor *)

Lemma check_string (s : list ascii) :
  check (PValue (VString s)) =
  Return (returns (constructor (VString s))).
Proof.
  rewrite constructor_spec. cbv zeta.
  cbn [check checkString toBigNumber]. rewrite MAX_VALUE_eq.
  destruct (BigNumber.isInteger (BigNumber.ofString s)) eqn:Hi;
    [|reflexivity].
  destruct (BigNumber.isNegative (BigNumber.ofString s)) eqn:Hn;
    [reflexivity|].
  rewrite isLessThanOrEqualTo_integer by assumption. cbn [negb orb andb].
  destruct (BigNumber.magnitude (BigNumber.ofString s) <=? 2 ^ 256 - 1);
    reflexivity.
Qed.

Lemma check_BigNumber (b : BigNumber.t) :
  check (PValue (VBigNumber b)) =
  Return (returns (constructor (VBigNumber b))).
Proof.
  rewrite constructor_spec. cbv zeta.
  cbn [check toBigNumber]. rewrite MAX_VALUE_eq.
  destruct (BigNumber.isInteger b) eqn:Hi; [|reflexivity].
  destruct (BigNumber.isNegative b) eqn:Hn; [reflexivity|].
  rewrite isLessThanOrEqualTo_integer by assumption. cbn [negb orb andb].
  destruct (BigNumber.magnitude b <=? 2 ^ 256 - 1); reflexivity.
Qed.

Lemma ofNumber_isInteger (n : Number.t) :
  BigNumber.isInteger (BigNumber.ofNumber n) = Number.isInteger n.
Proof. destruct n; reflexivity. Qed.

(** *** increase *)

Lemma increase_spec (u : t) :
  inRange u = true ->
  increase u =
  if toN u + 1 <=? 2 ^ 256 - 1
  then Return
         (mk (BigNumber.plus (value u) (BigNumber.ofNumber (Number.ofN 1))))
  else Throw OutOfRange.
Proof.
  intros H. apply inRange_parts in H as [Hi [Hn _]].
  destruct (plus_one (value u) Hi Hn) as [Hi' [Hn' Hm]].
  unfold increase. rewrite constructor_spec. cbv zeta. cbn [toBigNumber].
  rewrite Hi', Hn', Hm. cbn [negb orb]. fold (toN u).
  destruct (toN u + 1 <=? 2 ^ 256 - 1); reflexivity.
Qed.

End WithParser.

End U256Facts.

(** * The specification's claims *)

Section Claims.
Import U256 U256Facts BigNumberFacts BufferFacts.

Context {parser : BigNumber.Parser}.

(** C1 (round trip), where it breaks.  The codec frames nothing around a
    single byte below 128, so a U256 holding 1 to 127 is encoded as that one
    byte; [fromBytes] takes the byte for a length prefix, finds a negative
    length and throws.  Every other value does come back
    ([U256Facts.fromBytes_rlpBytes]). *)
Theorem C1_round_trip_breaks_below_128 (u : t) :
  inRange u = true -> 1 <= toN u <= 127 ->
  rlpBytes u = [Buffer.byteOf (toN u)] /\
  fromBytes (rlpBytes u) = Throw InvalidRLP.
Proof.
  intros Hr Hn.
  destruct (rlpBytes_positive u Hr) as [bytes [Hv [_ [Hone E]]]]; [lia|].
  destruct (N.ltb_spec (toN u) 128); [|lia].
  destruct bytes as [|b [|b' bytes']];
    try (cbn [List.length] in Hone; lia).
  unfold Buffer.valueBE in Hv. cbn [fold_left] in Hv.
  assert (Hb : Buffer.byteOf (toN u) = b).
  { rewrite <- Hv. unfold Buffer.byteOf.
    rewrite N.mul_0_r, N.add_0_l, N.mod_small by apply to_N_lt.
    now rewrite Byte.of_to_N. }
  rewrite E, Hb. split; [reflexivity|].
  apply fromBytes_bare_byte. lia.
Qed.

(** C2 (zero), as the code has it.  A U256 holding 0 is handed to the codec
    as the number 0 and comes out as the single byte 0x80, the codec's
    encoding of the number zero and of the empty string alike; what the
    special case avoids is the byte 0x00, which the string ["0x0"] would
    give.  [fromBytes] turns [0x80] back into 0. *)
Theorem C2_zero_is_encoded_as_0x80 (u : t) :
  inRange u = true -> toN u = 0 ->
  rlpBytes u = [x80] /\
  RLP.encode (RLP.Str (str "0x0")) = [x00] /\
  fromBytes (rlpBytes u) = Return (mk (BigNumber.ofNumber (Number.ofN 0))).
Proof.
  intros Hr Hz. rewrite (rlpBytes_zero u Hr Hz).
  split; [reflexivity | split; reflexivity].
Qed.

(** C3 (check as a validity predicate), where it breaks.  For a native
    number [check] tests only that it is an integer and not below zero: a
    number above [2^256 - 1] passes [check] and is refused by the
    constructor.  For strings and BigNumbers the two agree
    ([U256Facts.check_string], [U256Facts.check_BigNumber]). *)
Theorem C3_check_accepts_numbers_above_the_bound (n : Number.t) :
  Number.isInteger n = true -> Number.geZero n = true ->
  2 ^ 256 - 1 < BigNumber.magnitude (BigNumber.ofNumber n) ->
  check (PValue (VNumber n)) = Return true /\
  constructor (VNumber n) = Throw OutOfRange.
Proof.
  intros Hi Hg Hm. split.
  - cbn [check]. now rewrite Hi, Hg.
  - rewrite constructor_spec. cbv zeta. cbn [toBigNumber].
    rewrite ofNumber_isInteger, Hi.
    destruct n as [|neg|neg c e]; try discriminate Hi.
    cbn [BigNumber.ofNumber BigNumber.isNegative] in *.
    destruct neg.
    + cbn [Number.geZero negb orb] in Hg. apply N.eqb_eq in Hg. subst c.
      exfalso. cbn [BigNumber.magnitude] in Hm.
      destruct (0 <=? e)%Z; [rewrite N.mul_0_l in Hm | rewrite N.Div0.div_0_l in Hm];
        now apply N.nlt_0_r in Hm.
    + cbn [negb orb].
      destruct (N.leb_spec (BigNumber.magnitude (BigNumber.Finite false c e))
                  (2 ^ 256 - 1)); [lia | reflexivity].
Qed.

(** C4 (leading zeros), as the code has it.  [fromBytes] has no minimality
    check: a well-framed payload of 1 to 32 bytes that begins with 0x00 is
    accepted, and decodes to what the rest of the payload spells. *)
Theorem C4_leading_zero_is_accepted (first : byte) (rest : list byte) :
  Byte.to_N first = 128 + N.of_nat (S (List.length rest)) ->
  (List.length rest < 32)%nat ->
  fromBytes (first :: x00 :: rest) =
  Return (mk (BigNumber.Finite false (Buffer.valueBE rest) 0)).
Proof.
  intros Hfirst Hlen.
  rewrite (fromBytes_payload first (x00 :: rest));
    [reflexivity | exact Hfirst | cbn [List.length]; lia].
Qed.


(** C6 (length checks of the decoder).  [fromBytes] throws its "must be
    less than or equal to 32" error when the declared length, the first
    byte minus 0x80, exceeds 32; otherwise it throws its "Invalid RLP" error
    when the bytes that follow are not exactly that many (always so for a
    first byte below 0x80, and for an empty buffer); it returns exactly
    when both checks pass. *)
Theorem C6_decode_length_checks :
  fromBytes [] = Throw InvalidRLP /\
  forall (first : byte) (bytes : list byte),
    let length := (Z.of_N (Byte.to_N first) - 0x80)%Z in
    ((32 < length)%Z -> fromBytes (first :: bytes) = Throw BufferTooLong) /\
    ((length <= 32)%Z -> Z.of_nat (List.length bytes) <> length ->
     fromBytes (first :: bytes) = Throw InvalidRLP) /\
    (returns (fromBytes (first :: bytes)) = true <->
     (length <= 32)%Z /\ Z.of_nat (List.length bytes) = length).
Proof.
  split; [reflexivity|]. intros first bytes length.
  assert (Hdef : fromBytes (first :: bytes) =
                 if (32 <? length)%Z then Throw BufferTooLong
                 else if negb (Z.of_nat (List.length bytes) =? length)%Z
                      then Throw InvalidRLP
                      else if (length =? 0)%Z
                           then constructor (VNumber (Number.ofN 0))
                           else constructor
                                  (VString
                                     (str "0x" ++
                                      List.concat (map byteHex bytes))))
    by reflexivity.
  split; [|split; [|split]].
  - intros H. rewrite Hdef. destruct (Z.ltb_spec 32 length); [reflexivity|lia].
  - intros H Hne. rewrite Hdef.
    destruct (Z.ltb_spec 32 length); [lia|].
    destruct (Z.eqb_spec (Z.of_nat (List.length bytes)) length);
      [contradiction | reflexivity].
  - rewrite Hdef. destruct (Z.ltb_spec 32 length); [discriminate|].
    destruct (Z.eqb_spec (Z.of_nat (List.length bytes)) length);
      [|discriminate].
    intros _. split; assumption.
  - intros [H32 Hlen].
    destruct (Z.eqb_spec length 0) as [E0|E0].
    + rewrite Hdef.
      destruct (Z.ltb_spec 32 length); [lia|].
      destruct (Z.eqb_spec (Z.of_nat (List.length bytes)) length);
        [|contradiction].
      destruct (Z.eqb_spec length 0); [reflexivity | contradiction].
    + rewrite fromBytes_payload; [reflexivity | unfold length in *; lia | lia].
Qed.

(** C7 (check never throws), where it breaks.  [check] does return a
    boolean on every input, but not [false] on every input the constructor
    refuses: on the native number [-0], and on every integer-valued native
    number above [2^256 - 1], it returns [true].  This is the gap of C3, in
    the branch for numbers; on strings and BigNumbers [check] does answer
    [false] whenever the constructor would throw ([U256Facts.check_string],
    [U256Facts.check_BigNumber]). *)
Theorem C7_check_true_on_refused_numbers (neg : bool) (c : N) (e : Z) :
  Number.isInteger (Number.Finite neg c e) = true ->
  (neg = true /\ c = 0) \/
  (neg = false /\
   2 ^ 256 - 1 <
   BigNumber.magnitude (BigNumber.ofNumber (Number.Finite neg c e))) ->
  check (PValue (VNumber (Number.Finite neg c e))) = Return true /\
  returns (ensure (PValue (VNumber (Number.Finite neg c e)))) = false.
Proof.
  intros Hi Hcase. cbn [check ensure].
  rewrite constructor_spec. cbv zeta. cbn [toBigNumber].
  rewrite ofNumber_isInteger, Hi.
  cbn [BigNumber.ofNumber BigNumber.isNegative negb orb andb] in *.
  destruct Hcase as [[-> ->]|[-> Hm]].
  - split; reflexivity.
  - cbn [Number.geZero negb orb]. split; [reflexivity|].
    destruct (N.leb_spec
                (BigNumber.magnitude (BigNumber.Finite false c e))
                (2 ^ 256 - 1)); [lia | reflexivity].
Qed.

(** C8 (what the decoder computes), as the code has it.  [[0x80]], the
    one buffer that declares length 0 and passes the length check, decodes
    to 0, and it is the very framing [rlpBytes] gives to zero.  With a
    declared length of 1 to 32 and as many bytes after it, each byte is
    written as two lowercase hexadecimal digits, the digits are joined
    behind ["0x"] and read in base 16: the instance returned holds the
    integer the payload spells, most significant byte first. *)
Theorem C8_decoded_value :
  (forall u, inRange u = true -> toN u = 0 -> rlpBytes u = [x80]) /\
  fromBytes [x80] = Return (mk (BigNumber.ofNumber (Number.ofN 0))) /\
  (forall bytes, bytes <> [] -> fromBytes (x80 :: bytes) = Throw InvalidRLP) /\
  (forall b, byteHex b =
             [Hex.digitChar (Byte.to_N b / 16);
              Hex.digitChar (Byte.to_N b mod 16)]) /\
  forall (first : byte) (bytes : list byte),
    Byte.to_N first = 128 + N.of_nat (List.length bytes) ->
    (1 <= List.length bytes <= 32)%nat ->
    fromBytes (first :: bytes) =
      constructor (VString (str "0x" ++ List.concat (map byteHex bytes))) /\
    BigNumber.ofString (str "0x" ++ List.concat (map byteHex bytes)) =
      BigNumber.Finite false (Buffer.valueBE bytes) 0 /\
    fromBytes (first :: bytes) =
      Return (mk (BigNumber.Finite false (Buffer.valueBE bytes) 0)).
Proof.
  split; [exact rlpBytes_zero|].
  split; [reflexivity | split; [|split; [exact byteHex_digits|]]].
  - intros [|b bytes] Hne; [contradiction | reflexivity].
  - intros first bytes Hfirst Hlen. split; [|split].
    + unfold fromBytes. cbv zeta.
      replace (Z.of_N (Byte.to_N first) - 0x80)%Z
        with (Z.of_nat (List.length bytes)) by lia.
      destruct (Z.ltb_spec 32 (Z.of_nat (List.length bytes))); [lia|].
      rewrite Z.eqb_refl. cbn [negb].
      destruct (Z.eqb_spec (Z.of_nat (List.length bytes)) 0);
        [lia | reflexivity].
    + apply BigNumber.ofString_hex.
      * intros E. apply (f_equal (@List.length ascii)) in E.
        rewrite payload_length in E. cbn [List.length] in E. lia.
      * apply HexFacts.uniformCase_lower, payload_lower.
      * apply parse_payload.
    + now apply fromBytes_payload.
Qed.

(** C9 (range invariant).  Every instance handed out by the constructor,
    [fromBytes], [ensure] or [increase] holds an integer [v] with
    [0 <= v <= 2^256 - 1]. *)
Theorem C9_range_invariant (u : t) : Produced u -> inRange u = true.
Proof.
  induction 1 as [v u Hc | buffer u Hf | param u Hin IH He | this u _ _ Hi].
  - now apply constructor_Return in Hc.
  - destruct buffer as [|first bytes]; [discriminate Hf|].
    unfold fromBytes in Hf. cbv zeta in Hf.
    destruct (32 <? _)%Z; [discriminate Hf|].
    destruct (negb _); [discriminate Hf|].
    destruct (_ =? 0)%Z; now apply constructor_Return in Hf.
  - destruct param as [u0|v]; cbn [ensure] in He.
    + injection He as <-. now apply IH.
    + now apply constructor_Return in He.
  - now apply constructor_Return in Hi.
Qed.

(** C10 (increase).  On an instance holding [2^256 - 1], [increase] throws
    the constructor's out-of-range error.  On an instance holding a smaller
    [v] it returns an instance in range holding [v + 1]; the instance it was
    called on is not written to. *)
Theorem C10_increase (u : t) :
  inRange u = true ->
  (toN u = 2 ^ 256 - 1 -> increase u = Throw OutOfRange) /\
  (toN u < 2 ^ 256 - 1 ->
   exists u', increase u = Return u' /\
              toN u' = toN u + 1 /\ inRange u' = true).
Proof.
  intros Hr. rewrite (increase_spec u Hr). split.
  - intros ->. reflexivity.
  - intros Hlt. destruct (N.leb_spec (toN u + 1) (2 ^ 256 - 1)); [|lia].
    eexists. split; [reflexivity|].
    apply inRange_parts in Hr as [Hi [Hn _]].
    destruct (plus_one (value u) Hi Hn) as [Hi' [Hn' Hm]].
    unfold inRange, toN. cbn [value]. rewrite Hi', Hn', Hm. fold (toN u).
    split; [reflexivity|]. cbn [negb andb]. now apply N.leb_le.
Qed.

End Claims.

(** * The claims on concrete inputs, with the reference reader *)

(** A U256 holding 1 is encoded as the byte 0x01, which [fromBytes]
    refuses. *)
Lemma C1_witness :
  (U256.inRange (U256.mk (BigNumber.Finite false 1 0)) = true /\
   1 <= U256.toN (U256.mk (BigNumber.Finite false 1 0)) <= 127) /\
  U256.rlpBytes (U256.mk (BigNumber.Finite false 1 0)) = [x01] /\
  U256.fromBytes (U256.rlpBytes (U256.mk (BigNumber.Finite false 1 0))) =
  U256.Throw U256.InvalidRLP.
Proof.
  split; [split; [reflexivity | split; discriminate]|].
  apply (@C1_round_trip_breaks_below_128 reader
           (U256.mk (BigNumber.Finite false 1 0)));
    [reflexivity | split; discriminate].
Defined.

(** The claim's "not 0x80" fails on the U256 holding 0. *)
Lemma C2_counterexample :
  ~ (U256.rlpBytes (U256.mk (BigNumber.Finite false 0 0)) <> [x80]).
Proof. intros H. apply H. reflexivity. Qed.

Lemma C2_witness :
  (U256.inRange (U256.mk (BigNumber.Finite false 0 0)) = true /\
   U256.toN (U256.mk (BigNumber.Finite false 0 0)) = 0) /\
  U256.rlpBytes (U256.mk (BigNumber.Finite false 0 0)) = [x80] /\
  RLP.encode (RLP.Str (str "0x0")) = [x00] /\
  U256.fromBytes (U256.rlpBytes (U256.mk (BigNumber.Finite false 0 0))) =
  U256.Return (U256.mk (BigNumber.Finite false 0 0)).
Proof.
  split; [split; reflexivity|].
  apply (@C2_zero_is_encoded_as_0x80 reader
           (U256.mk (BigNumber.Finite false 0 0))); reflexivity.
Defined.

(** The native number [1e78]: [check] says yes, the constructor throws. *)
Lemma C3_witness :
  (Number.isInteger (Number.Finite false 1 78) = true /\
   Number.geZero (Number.Finite false 1 78) = true /\
   2 ^ 256 - 1 <
   BigNumber.magnitude (BigNumber.ofNumber (Number.Finite false 1 78))) /\
  U256.check (U256.PValue (U256.VNumber (Number.Finite false 1 78))) =
  U256.Return true /\
  U256.constructor (U256.VNumber (Number.Finite false 1 78)) =
  U256.Throw U256.OutOfRange.
Proof.
  split; [split; [reflexivity | split; reflexivity]|].
  apply (@C3_check_accepts_numbers_above_the_bound reader
           (Number.Finite false 1 78)); reflexivity.
Defined.

(** A payload of one zero byte is accepted. *)
Lemma C4_counterexample :
  U256.fromBytes [x81; x00] =
  U256.Return (U256.mk (BigNumber.Finite false 0 0)) /\
  ~ (exists e, U256.fromBytes [x81; x00] = U256.Throw e).
Proof.
  split; [reflexivity|]. intros [e H]. discriminate H.
Qed.

Lemma C4_witness :
  (Byte.to_N x82 = 128 + N.of_nat (S (List.length [x2a])) /\
   (List.length [x2a] < 32)%nat) /\
  U256.fromBytes [x82; x00; x2a] =
  U256.Return (U256.mk (BigNumber.Finite false 42 0)).
Proof.
  split; [split; [reflexivity | cbn; lia]|].
  apply (@C4_leading_zero_is_accepted reader x82 [x2a]);
    [reflexivity | cbn; lia].
Defined.


(** [-0]: a boolean comes back, and it is [true]. *)
Lemma C7_witness :
  (Number.isInteger (Number.Finite true 0 0) = true /\
   ((true = true /\ 0 = 0) \/
    (true = false /\
     2 ^ 256 - 1 <
     BigNumber.magnitude
       (BigNumber.ofNumber (Number.Finite true 0 0))))) /\
  U256.check (U256.PValue (U256.VNumber (Number.Finite true 0 0))) =
    U256.Return true /\
  U256.returns
    (U256.ensure (U256.PValue (U256.VNumber (Number.Finite true 0 0)))) =
    false.
Proof.
  split; [split; [reflexivity | left; split; reflexivity]|].
  apply (@C7_check_true_on_refused_numbers reader true 0 0%Z);
    [reflexivity | left; split; reflexivity].
Defined.

(** The encoder does emit [[0x80]] for zero, and [fromBytes] reads it
    back. *)
Lemma C8_counterexample :
  U256.constructor (U256.VNumber (Number.ofN 0)) =
    U256.Return (U256.mk (BigNumber.Finite false 0 0)) /\
  U256.rlpBytes (U256.mk (BigNumber.Finite false 0 0)) = [x80] /\
  U256.fromBytes (U256.rlpBytes (U256.mk (BigNumber.Finite false 0 0))) =
    U256.Return (U256.mk (BigNumber.Finite false 0 0)).
Proof. split; [reflexivity | split; reflexivity]. Qed.

(** The specification's example: [[0x81, 0x10]] decodes to 16. *)
Lemma C8_witness :
  (Byte.to_N x81 = 128 + N.of_nat (List.length [x10]) /\
   (1 <= List.length [x10] <= 32)%nat) /\
  U256.fromBytes [x81; x10] =
  U256.Return (U256.mk (BigNumber.Finite false 16 0)).
Proof.
  split; [split; [reflexivity | cbn; lia]|].
  apply (proj2 (proj2 (proj2 (proj2 (@C8_decoded_value reader)))) x81 [x10]);
    [reflexivity | cbn; lia].
Defined.

(** 41, read from a string, then increased. *)
Lemma C9_witness :
  U256.Produced (U256.mk (BigNumber.Finite false 42 0)) /\
  U256.inRange (U256.mk (BigNumber.Finite false 42 0)) = true.
Proof.
  assert (H : U256.Produced (U256.mk (BigNumber.Finite false 42 0))).
  { apply U256.by_increase with (this := U256.mk (BigNumber.Finite false 41 0));
      [|reflexivity].
    apply U256.by_constructor with (v := U256.VString (str "41")).
    reflexivity. }
  split; [exact H | exact (@C9_range_invariant reader _ H)].
Defined.

(** At the maximum [increase] throws; below it, it adds one. *)
Lemma C10_witness :
  (U256.inRange (U256.mk (BigNumber.Finite false (2 ^ 256 - 1) 0)) = true /\
   U256.toN (U256.mk (BigNumber.Finite false (2 ^ 256 - 1) 0)) =
   2 ^ 256 - 1) /\
  U256.increase (U256.mk (BigNumber.Finite false (2 ^ 256 - 1) 0)) =
  U256.Throw U256.OutOfRange.
Proof.
  split; [split; reflexivity|].
  apply (@C10_increase reader
           (U256.mk (BigNumber.Finite false (2 ^ 256 - 1) 0)));
    reflexivity.
Defined.

(** * Worked examples *)

Example constructor_hex_string :
  U256.constructor (U256.VString (str "0x10")) =
  U256.Return (U256.mk (BigNumber.Finite false 16 0)).
Proof. reflexivity. Qed.

Example constructor_refuses :
  U256.constructor (U256.VString (str "-1")) =
    U256.Throw U256.MustBePositiveInteger /\
  U256.constructor (U256.VString (str "1.5")) =
    U256.Throw U256.MustBePositiveInteger /\
  U256.constructor (U256.VString (str "abc")) =
    U256.Throw U256.MustBePositiveInteger /\
  U256.constructor (U256.VString (str "-0")) =
    U256.Throw U256.MustBePositiveInteger /\
  U256.constructor
    (U256.VString
       (str "115792089237316195423570985008687907853269984665640564039457584007913129639936")) =
    U256.Throw U256.OutOfRange.
Proof. repeat split; vm_compute; reflexivity. Qed.

Example MAX_VALUE_reader :
  U256.MAX_VALUE = BigNumber.Finite false (2 ^ 256 - 1) 0.
Proof. vm_compute. reflexivity. Qed.

Example rlpBytes_examples :
  map (fun n => U256.rlpBytes (U256.mk (BigNumber.Finite false n 0)))
      [0; 1; 16; 127; 128; 256] =
  [[x80]; [x01]; [x10]; [x7f]; [x81; x80]; [x82; x01; x00]].
Proof. vm_compute. reflexivity. Qed.

Example round_trip_at_the_maximum :
  U256.fromBytes
    (U256.rlpBytes (U256.mk (BigNumber.Finite false (2 ^ 256 - 1) 0))) =
  U256.Return (U256.mk (BigNumber.Finite false (2 ^ 256 - 1) 0)).
Proof. vm_compute. reflexivity. Qed.

Example check_minus_zero :
  U256.check (U256.PValue (U256.VNumber (Number.Finite true 0 0))) =
    U256.Return true /\
  U256.constructor (U256.VNumber (Number.Finite true 0 0)) =
    U256.Throw U256.MustBePositiveInteger.
Proof. split; reflexivity. Qed.

(** * Further facts *)

(** ** Digits without leading zeros *)

Module DigitFacts.
Import Hex HexFacts.

Lemma parse_bound (s : list ascii) : forall acc v,
  parse acc s = Some v -> v < (acc + 1) * 16 ^ N.of_nat (List.length s).
Proof.
  induction s as [|c s IH]; intros acc v H.
  - cbn [parse] in H. injection H as <-.
    cbn [List.length]. change (16 ^ N.of_nat 0) with 1. lia.
  - cbn [parse] in H. destruct (digitOf c) as [d|] eqn:Ed; [|discriminate].
    assert (Hd : d < 16).
    { unfold digitOf in Ed.
      repeat match type of Ed with
             | (if ?b then _ else _) = _ => destruct b eqn:?
             end; try discriminate; injection Ed as <-;
        repeat match goal with
               | H : (_ && _) = true |- _ => apply andb_prop in H as [? ?]
               | H : (_ <=? _) = true |- _ => apply N.leb_le in H
               end; lia. }
    apply IH in H. cbn [List.length].
    rewrite Nat2N.inj_succ, N.pow_succ_r'.
    eapply N.lt_le_trans; [exact H|].
    rewrite N.mul_assoc. apply N.mul_le_mono_r. lia.
Qed.

(** [n.toString(16)] starts with a zero only when it is ["0"]. *)
Lemma ofN_no_leading_zero (n : N) (rest : list ascii) :
  ofN n = "0"%char :: rest -> rest = [].
Proof.
  intros E. destruct rest as [|c rest]; [reflexivity|]. exfalso.
  pose proof (parse_ofN n) as Hp. rewrite E in Hp.
  change (parse 0 ("0"%char :: c :: rest)) with (parse 0 (c :: rest)) in Hp.
  apply parse_bound in Hp.
  rewrite N.add_0_l, N.mul_1_l in Hp.
  cbn [List.length] in Hp.
  apply (ofN_length n (List.length rest)) in Hp.
  rewrite E in Hp. cbn [List.length] in Hp. lia.
Qed.

End DigitFacts.

(** ** Big-endian byte strings *)

Module BigEndianFacts.
Import Buffer BufferFacts.

Lemma to_N_inj (a b : byte) : Byte.to_N a = Byte.to_N b -> a = b.
Proof.
  intros H. pose proof (Byte.of_to_N a) as Ha.
  rewrite H, Byte.of_to_N in Ha. congruence.
Qed.

Lemma valueBE_lower (bytes : list byte) : forall acc,
  acc * 256 ^ N.of_nat (List.length bytes) <=
  fold_left (fun a b => 256 * a + Byte.to_N b) bytes acc.
Proof.
  induction bytes as [|b bytes IH]; intros acc.
  - cbn [fold_left List.length]. change (256 ^ N.of_nat 0) with 1. lia.
  - cbn [fold_left List.length]. rewrite Nat2N.inj_succ, N.pow_succ_r'.
    eapply N.le_trans; [|apply IH].
    rewrite N.mul_assoc. apply N.mul_le_mono_r. lia.
Qed.

(** Two byte strings of one length that spell the same integer are the same
    string. *)
Lemma valueBE_inj (l1 : list byte) : forall l2 a1 a2,
  List.length l1 = List.length l2 ->
  fold_left (fun a b => 256 * a + Byte.to_N b) l1 a1 =
  fold_left (fun a b => 256 * a + Byte.to_N b) l2 a2 ->
  a1 = a2 /\ l1 = l2.
Proof.
  induction l1 as [|b1 l1 IH]; intros [|b2 l2] a1 a2 Hlen H;
    try discriminate Hlen.
  - cbn [fold_left] in H. auto.
  - cbn [fold_left List.length] in *. injection Hlen as Hlen.
    destruct (IH l2 _ _ Hlen H) as [Ha ->].
    pose proof (to_N_lt b1). pose proof (to_N_lt b2).
    assert (a1 = a2) by lia. subst a2.
    assert (Byte.to_N b1 = Byte.to_N b2) as Hb by lia.
    apply to_N_inj in Hb. subst b2. auto.
Qed.

Lemma minimal_head (b : byte) (l : list byte) :
  minimal (b :: l) = true <-> 1 <= Byte.to_N b.
Proof.
  cbn [minimal]. rewrite negb_true_iff. split.
  - intros H. apply Byte.eqb_false in H.
    destruct (N.eq_dec (Byte.to_N b) 0) as [E|E]; [|lia].
    exfalso. apply H. apply to_N_inj. exact E.
  - intros H. destruct (Byte.eqb b x00) eqn:E; [|reflexivity].
    apply Byte.byte_dec_bl in E. subst b. cbn in H. lia.
Qed.

Lemma minimal_length (l1 l2 : list byte) :
  minimal l1 = true -> valueBE l1 = valueBE l2 ->
  (List.length l1 <= List.length l2)%nat.
Proof.
  intros Hm Hv. destruct l1 as [|b l1]; [cbn [List.length]; lia|].
  apply minimal_head in Hm. unfold valueBE in Hv. cbn [fold_left] in Hv.
  rewrite N.mul_0_r, N.add_0_l in Hv.
  assert (Hb : 1 <= Byte.to_N b) by exact Hm.
  pose proof (valueBE_lower l1 (Byte.to_N b)) as Hlo.
  pose proof (valueBE_bound l2 0) as Hhi.
  rewrite N.add_0_l, N.mul_1_l in Hhi. rewrite Hv in Hlo.
  assert (Hpow : 256 ^ N.of_nat (List.length l1) <
                 256 ^ N.of_nat (List.length l2)).
  { eapply N.le_lt_trans; [|exact Hhi].
    eapply N.le_trans; [|exact Hlo].
    rewrite <- (N.mul_1_l (256 ^ _)) at 1. apply N.mul_le_mono_r. exact Hb. }
  apply N.pow_lt_mono_r_iff in Hpow; [|lia].
  cbn [List.length]. lia.
Qed.

(** The minimal big-endian spelling of an integer is unique. *)
Lemma minimal_unique (l1 l2 : list byte) :
  minimal l1 = true -> minimal l2 = true -> valueBE l1 = valueBE l2 ->
  l1 = l2.
Proof.
  intros H1 H2 Hv.
  assert (Hlen : List.length l1 = List.length l2).
  { apply Nat.le_antisymm; apply minimal_length; auto. }
  now destruct (valueBE_inj l1 l2 0 0 Hlen Hv).
Qed.

End BigEndianFacts.

(** ** Comparing two integers *)

Module CompareFacts.
Import BigNumber BigNumberFacts.

(** The coefficient of an integer at any exponent [m <= e]. *)
Lemma integer_at (neg : bool) (c : N) (e m : Z) :
  isInteger (Finite neg c e) = true -> (m <= e)%Z ->
  ((m <= 0 ->
    Z.of_N c * 10 ^ (e - m) =
    Z.of_N (magnitude (Finite neg c e)) * 10 ^ (- m)) /\
   (0 < m ->
    Z.of_N c * 10 ^ (e - m) * 10 ^ m =
    Z.of_N (magnitude (Finite neg c e))))%Z.
Proof.
  cbn [isInteger magnitude]. intros Hi Hm.
  destruct (Z.leb_spec 0 e) as [He|He].
  - rewrite N2Z.inj_mul, N2Z.inj_pow, Z2N.id by lia.
    change (Z.of_N 10) with 10%Z. split; intros H.
    + replace (e - m)%Z with (e + - m)%Z by lia.
      rewrite Z.pow_add_r by lia. ring.
    + rewrite <- Z.mul_assoc, <- Z.pow_add_r by lia.
      now replace (e - m + m)%Z with e by lia.
  - split; intros H; [|lia].
    apply N.eqb_eq in Hi.
    set (P := 10 ^ Z.to_N (- e)) in *.
    assert (HP : Z.of_N P = (10 ^ (- e))%Z).
    { unfold P. rewrite N2Z.inj_pow, Z2N.id by lia. reflexivity. }
    assert (P <> 0) by (unfold P; apply N.pow_nonzero; lia).
    pose proof (N.div_mod c P) as Hdm. rewrite Hi in Hdm.
    assert (Hc : Z.of_N c = (Z.of_N (c / P) * 10 ^ (- e))%Z).
    { rewrite <- HP, <- N2Z.inj_mul. f_equal. lia. }
    rewrite Hc at 1. rewrite <- Z.mul_assoc, <- Z.pow_add_r by lia.
    now replace (- e + (e - m))%Z with (- m)%Z by lia.
Qed.

(** Two non-negative integers compare as their magnitudes do, whatever
    coefficient and exponent each is held with. *)
Lemma compare_integers (x y : t) :
  isInteger x = true -> isNegative x = false ->
  isInteger y = true -> isNegative y = false ->
  compare x y = Some (magnitude x ?= magnitude y).
Proof.
  intros Hix Hnx Hiy Hny.
  destruct (isInteger_finite _ Hix) as [s1 [c1 [e1 ->]]].
  destruct (isInteger_finite _ Hiy) as [s2 [c2 [e2 ->]]].
  cbn [isNegative] in Hnx, Hny. subst s1 s2.
  unfold compare, scaled. cbv zeta.
  rewrite (Z.mul_1_l (Z.of_N c1 * _)), (Z.mul_1_l (Z.of_N c2 * _)).
  set (m := Z.min e1 e2).
  destruct (@integer_at false c1 e1 m Hix) as [A1 B1]; [unfold m; lia|].
  destruct (@integer_at false c2 e2 m Hiy) as [A2 B2]; [unfold m; lia|].
  set (k1 := magnitude (Finite false c1 e1)) in *.
  set (k2 := magnitude (Finite false c2 e2)) in *.
  set (z1 := (Z.of_N c1 * 10 ^ (e1 - m))%Z) in *.
  set (z2 := (Z.of_N c2 * 10 ^ (e2 - m))%Z) in *.
  f_equal. destruct (Z.leb_spec m 0) as [Hm|Hm].
  - rewrite A1, A2 by assumption.
    assert (HT : (0 < 10 ^ (- m))%Z) by (apply Z.pow_pos_nonneg; lia).
    set (T := (10 ^ (- m))%Z) in *.
    destruct (Z.compare_spec (Z.of_N k1 * T) (Z.of_N k2 * T));
      destruct (N.compare_spec k1 k2); try reflexivity; exfalso; nia.
  - specialize (B1 Hm). specialize (B2 Hm).
    assert (HT : (0 < 10 ^ m)%Z) by (apply Z.pow_pos_nonneg; lia).
    set (T := (10 ^ m)%Z) in *.
    destruct (Z.compare_spec z1 z2);
      destruct (N.compare_spec k1 k2); try reflexivity; exfalso; nia.
Qed.

End CompareFacts.

(** ** Decimal numerals *)

Module DecFacts.
Import Dec.

Lemma below10_cases (d : N) :
  d < 10 -> In d [0; 1; 2; 3; 4; 5; 6; 7; 8; 9].
Proof.
  intros H. simpl.
  destruct d as [|p]; [now left|].
  do 4 (destruct p as [p|p|]; try lia; auto 20).
Qed.

Lemma digitChar_value (d : N) : d < 10 -> N_of_ascii (digitChar d) - 48 = d.
Proof.
  intros H. apply below10_cases in H. simpl in H.
  repeat (destruct H as [<-|H]; [reflexivity|]). contradiction.
Qed.

Lemma digitChar_isDecimal (d : N) :
  d < 10 -> Hex.isDecimal (digitChar d) = true.
Proof.
  intros H. apply below10_cases in H. simpl in H.
  repeat (destruct H as [<-|H]; [reflexivity|]). contradiction.
Qed.

(** Reading a numeral from [acc], as the reader's [decimalValue] does. *)
Lemma read_rev_digits (ds : list N) : forall acc,
  Forall (fun d => d < 10) ds ->
  fold_left (fun a c => 10 * a + (N_of_ascii c - 48))
            (map digitChar (rev ds)) acc =
  acc * 10 ^ N.of_nat (List.length ds) + evalLE ds.
Proof.
  induction ds as [|d ds IH]; intros acc Hds.
  - cbn [rev map fold_left List.length evalLE].
    change (10 ^ N.of_nat 0) with 1. lia.
  - inversion Hds as [|? ? Hd Hds']; subst.
    cbn [rev]. rewrite map_app, fold_left_app, IH by assumption.
    cbn [map fold_left]. rewrite digitChar_value by assumption.
    cbn [List.length evalLE].
    rewrite Nat2N.inj_succ, N.pow_succ_r'. ring.
Qed.

Lemma digitsLE_below10 (fuel : nat) : forall n,
  Forall (fun d => d < 10) (digitsLE fuel n).
Proof.
  induction fuel as [|fuel IH]; intros n; cbn [digitsLE]; [constructor|].
  destruct (N.ltb_spec n 10).
  - constructor; [assumption | constructor].
  - constructor; [apply N.mod_lt; lia | apply IH].
Qed.

Lemma decDigits_eval (fuel : nat) : forall n,
  n < 10 ^ N.of_nat fuel -> evalLE (digitsLE fuel n) = n.
Proof.
  induction fuel as [|fuel IH]; intros n Hn.
  - change (10 ^ N.of_nat 0) with 1 in Hn. cbn [digitsLE evalLE]. lia.
  - cbn [digitsLE]. destruct (N.ltb_spec n 10); cbn [evalLE]; [lia|].
    rewrite IH.
    + pose proof (N.div_mod n 10). lia.
    + rewrite Nat2N.inj_succ, N.pow_succ_r' in Hn.
      apply N.Div0.div_lt_upper_bound; lia.
Qed.

Lemma decDigits_nonempty (fuel : nat) (n : N) : digitsLE (S fuel) n <> [].
Proof. cbn [digitsLE]. destruct (n <? 10); discriminate. Qed.

Lemma decDigits_length (fuel : nat) : forall n k,
  n < 10 ^ N.of_nat (S fuel) ->
  ((List.length (digitsLE (S fuel) n) <= S k)%nat <->
   n < 10 ^ N.of_nat (S k)).
Proof.
  induction fuel as [|fuel IH]; intros n k Hn;
    assert (H10 : 10 ^ N.of_nat 1 <= 10 ^ N.of_nat (S k))
      by (apply N.pow_le_mono_r; lia);
    change (10 ^ N.of_nat 1) with 10 in *.
  - cbn [digitsLE]. destruct (N.ltb_spec n 10); [|lia].
    cbn [List.length]. split; intros; lia.
  - remember (S fuel) as f eqn:Ef.
    cbn [digitsLE]. destruct (N.ltb_spec n 10) as [Hlt|Hge].
    + cbn [List.length]. split; intros; lia.
    + cbn [List.length].
      assert (Hdiv : n / 10 < 10 ^ N.of_nat f).
      { rewrite Nat2N.inj_succ, N.pow_succ_r' in Hn.
        apply N.Div0.div_lt_upper_bound; lia. }
      destruct k as [|k].
      * split; [|lia].
        intros Hlen. subst f.
        pose proof (@decDigits_nonempty fuel (n / 10)) as Hne.
        destruct (digitsLE (S fuel) (n / 10));
          [congruence | cbn [List.length] in Hlen; lia].
      * subst f. rewrite <- Nat.succ_le_mono, (IH (n / 10) k Hdiv).
        rewrite (Nat2N.inj_succ (S k)), N.pow_succ_r'.
        pose proof (N.div_mod n 10) as Hdm.
        pose proof (N.mod_lt n 10).
        split; intros Hk.
        -- nia.
        -- apply N.Div0.div_lt_upper_bound; lia.
Qed.

Lemma dec_size_fuel (n : N) : n < 10 ^ N.of_nat (S (N.to_nat (N.size n))).
Proof.
  rewrite Nat2N.inj_succ, N2Nat.id.
  apply N.lt_le_trans with (2 ^ N.size n); [apply N.size_gt|].
  apply N.le_trans with (10 ^ N.size n).
  - apply N.pow_le_mono_l. lia.
  - apply N.pow_le_mono_r; lia.
Qed.

(** The numeral reads back as the number. *)
Lemma numeral_value (n : N) : BigNumber.decimalValue (ofN n) = n.
Proof.
  unfold BigNumber.decimalValue, ofN.
  rewrite read_rev_digits by apply digitsLE_below10.
  rewrite decDigits_eval by apply dec_size_fuel. lia.
Qed.

Lemma numeral_length (n : N) (k : nat) :
  (List.length (ofN n) <= S k)%nat <-> n < 10 ^ N.of_nat (S k).
Proof.
  unfold ofN. rewrite length_map, length_rev.
  apply decDigits_length, dec_size_fuel.
Qed.

Lemma numeral_decimal (n : N) : forallb Hex.isDecimal (ofN n) = true.
Proof.
  unfold ofN. apply forallb_forall. intros c Hc.
  apply in_map_iff in Hc as [d [<- Hd]].
  apply digitChar_isDecimal. apply in_rev in Hd.
  pose proof (digitsLE_below10 (S (N.to_nat (N.size n))) n) as HF.
  rewrite Forall_forall in HF. now apply HF.
Qed.

Lemma numeral_nonempty (n : N) : ofN n <> [].
Proof.
  unfold ofN. intros H. apply map_eq_nil in H.
  apply (f_equal (@rev N)) in H. rewrite rev_involutive in H.
  now apply decDigits_nonempty in H.
Qed.

Lemma read_bound (s : list ascii) : forall acc,
  forallb Hex.isDecimal s = true ->
  fold_left (fun a c => 10 * a + (N_of_ascii c - 48)) s acc <
  (acc + 1) * 10 ^ N.of_nat (List.length s).
Proof.
  induction s as [|c s IH]; intros acc H.
  - cbn [fold_left List.length]. change (10 ^ N.of_nat 0) with 1. lia.
  - cbn [forallb] in H. apply andb_prop in H as [Hc Hs].
    cbn [fold_left List.length]. rewrite Nat2N.inj_succ, N.pow_succ_r'.
    eapply N.lt_le_trans; [apply IH; assumption|].
    rewrite N.mul_assoc. apply N.mul_le_mono_r.
    unfold Hex.isDecimal in Hc. apply andb_prop in Hc as [H1 H2].
    apply N.leb_le in H1, H2. lia.
Qed.

(** A numeral starts with a zero only when it is ["0"]. *)
Lemma numeral_no_leading_zero (n : N) (rest : list ascii) :
  ofN n = "0"%char :: rest -> rest = [].
Proof.
  intros E. destruct rest as [|c rest]; [reflexivity|]. exfalso.
  pose proof (numeral_value n) as Hv. pose proof (numeral_decimal n) as Hd.
  rewrite E in Hv, Hd. unfold BigNumber.decimalValue in Hv.
  cbn [forallb] in Hd. apply andb_prop in Hd as [_ Hd].
  change (fold_left _ ("0"%char :: c :: rest) 0)
    with (fold_left (fun a c => 10 * a + (N_of_ascii c - 48)) (c :: rest) 0)
    in Hv.
  pose proof (read_bound (c :: rest) 0 Hd) as Hb.
  rewrite Hv, N.add_0_l, N.mul_1_l in Hb. cbn [List.length] in Hb.
  apply (numeral_length n (List.length rest)) in Hb.
  rewrite E in Hb. cbn [List.length] in Hb. lia.
Qed.

End DecFacts.

(** ** More on encoding and decoding *)

Module EncodingFacts.
Import U256 U256Facts BigNumberFacts BufferFacts BigEndianFacts.

Section WithParser.

Context {parser : BigNumber.Parser}.

(** The buffer the codec makes of a positive value has no leading zero
    byte. *)
Lemma toBuffer_minimal (u : t) :
  inRange u = true -> toN u <> 0 ->
  Buffer.minimal (RLP.toBuffer (toEncodeObject u)) = true.
Proof.
  intros Hr Hz. destruct (toBuffer_positive u Hr Hz) as [Hv [H1 Hk]].
  destruct (RLP.toBuffer (toEncodeObject u)) as [|b rest];
    [reflexivity|].
  apply minimal_head.
  destruct (N.eq_dec (Byte.to_N b) 0) as [E|E];
    [|pose proof (to_N_lt b); lia].
  exfalso. unfold Buffer.valueBE in Hv. cbn [fold_left] in Hv.
  rewrite E, N.mul_0_r, N.add_0_l in Hv.
  pose proof (valueBE_bound rest 0) as Hb.
  rewrite Hv, N.add_0_l, N.mul_1_l in Hb.
  destruct rest as [|c rest].
  - cbn [fold_left] in Hv. congruence.
  - cbn [List.length] in Hb. apply Hk in Hb. cbn [List.length] in Hb. lia.
Qed.

(** The encoding of a value from 128 up: the length byte, then the minimal
    big-endian spelling of the value. *)
Lemma rlpBytes_large (u : t) :
  inRange u = true -> 128 <= toN u ->
  exists bytes,
    rlpBytes u = Buffer.byteOf (128 + N.of_nat (List.length bytes)) :: bytes /\
    Buffer.valueBE bytes = toN u /\
    Buffer.minimal bytes = true /\
    (1 <= List.length bytes <= 32)%nat.
Proof.
  intros Hr Hge.
  assert (Hz : toN u <> 0) by lia.
  destruct (toBuffer_positive u Hr Hz) as [Hv [H1 Hk]].
  pose proof (toBuffer_minimal u Hr Hz) as Hm.
  set (bytes := RLP.toBuffer (toEncodeObject u)) in *.
  exists bytes.
  assert (H32 : (List.length bytes <= 32)%nat).
  { apply Hk. change (256 ^ N.of_nat 32) with (2 ^ 256).
    now apply inRange_bound. }
  split; [|split; [assumption | split; [assumption | lia]]].
  unfold rlpBytes, RLP.encode. cbv zeta. fold bytes.
  assert (Hframe : RLP.encodeLength (N.of_nat (List.length bytes)) 128 =
                   [Buffer.byteOf (128 + N.of_nat (List.length bytes))]).
  { unfold RLP.encodeLength.
    destruct (N.ltb_spec (N.of_nat (List.length bytes)) 56); [|lia].
    now rewrite N.add_comm. }
  destruct bytes as [|b [|b' bytes']].
  - cbn [List.length] in H1. lia.
  - unfold Buffer.valueBE in Hv. cbn [fold_left] in Hv.
    destruct (N.ltb_spec (Byte.to_N b) 128); [lia | reflexivity].
  - rewrite Hframe. reflexivity.
Qed.

Lemma rlpBytes_small (u : t) :
  inRange u = true -> 1 <= toN u <= 127 ->
  rlpBytes u = [Buffer.byteOf (toN u)].
Proof.
  intros Hr Hn.
  destruct (rlpBytes_positive u Hr) as [bytes [Hv [_ [Hone E]]]]; [lia|].
  destruct (N.ltb_spec (toN u) 128); [|lia].
  destruct bytes as [|b [|b' bytes']];
    try (cbn [List.length] in Hone; lia).
  unfold Buffer.valueBE in Hv. cbn [fold_left] in Hv.
  rewrite E, <- Hv. f_equal. unfold Buffer.byteOf.
  rewrite N.mul_0_r, N.add_0_l, N.mod_small by apply to_N_lt.
  now rewrite Byte.of_to_N.
Qed.

(** The value can be read off the encoding. *)
Lemma rlpBytes_determines (u : t) :
  inRange u = true ->
  toN u =
  match rlpBytes u with
  | [b] => if Byte.to_N b <? 128 then Byte.to_N b else 0
  | _ :: bytes => Buffer.valueBE bytes
  | [] => 0
  end.
Proof.
  intros Hr.
  destruct (N.eq_dec (toN u) 0) as [Hz|Hz].
  - rewrite (rlpBytes_zero u Hr Hz). exact Hz.
  - destruct (N.ltb_spec (toN u) 128) as [Hlt|Hge].
    + rewrite rlpBytes_small by (assumption || lia).
      rewrite byteOf_to_N by lia.
      destruct (N.ltb_spec (toN u) 128); [reflexivity | lia].
    + destruct (rlpBytes_large u Hr Hge) as [bytes [-> [Hv [_ Hlen]]]].
      destruct bytes as [|b bytes]; [cbn [List.length] in Hlen; lia|].
      now rewrite Hv.
Qed.

(** The encoding depends on the value alone, not on the coefficient and
    exponent the BigNumber holds it with. *)
Lemma rlpBytes_of_value (u1 u2 : t) :
  inRange u1 = true -> inRange u2 = true -> toN u1 = toN u2 ->
  rlpBytes u1 = rlpBytes u2.
Proof.
  intros H1 H2 E. unfold rlpBytes, toEncodeObject. cbv zeta.
  now rewrite !toString16_inRange, E by assumption.
Qed.

(** What [fromBytes] returns, read back from the result. *)
Lemma fromBytes_Return (buffer : list byte) (u : t) :
  fromBytes buffer = Return u ->
  exists first bytes,
    buffer = first :: bytes /\
    Byte.to_N first = 128 + N.of_nat (List.length bytes) /\
    (List.length bytes <= 32)%nat /\
    u = mk (BigNumber.Finite false (Buffer.valueBE bytes) 0).
Proof.
  intros H. destruct buffer as [|first bytes]; [discriminate H|].
  exists first, bytes.
  assert (Hdef : fromBytes (first :: bytes) =
                 let length := (Z.of_N (Byte.to_N first) - 0x80)%Z in
                 if (32 <? length)%Z then Throw BufferTooLong
                 else if negb (Z.of_nat (List.length bytes) =? length)%Z
                      then Throw InvalidRLP
                      else if (length =? 0)%Z
                           then constructor (VNumber (Number.ofN 0))
                           else constructor
                                  (VString
                                     (str "0x" ++
                                      List.concat (map byteHex bytes))))
    by reflexivity.
  pose proof H as H'. rewrite Hdef in H. cbv zeta in H.
  destruct (Z.ltb_spec 32 (Z.of_N (Byte.to_N first) - 0x80));
    [discriminate H|].
  destruct (Z.eqb_spec (Z.of_nat (List.length bytes))
              (Z.of_N (Byte.to_N first) - 0x80)) as [El|]; [|discriminate H].
  cbn [negb] in H.
  assert (Hfirst : Byte.to_N first = 128 + N.of_nat (List.length bytes))
    by lia.
  assert (Hlen : (List.length bytes <= 32)%nat) by lia.
  split; [reflexivity | split; [assumption | split; [assumption|]]].
  destruct bytes as [|b bytes].
  - rewrite <- El in H. cbn in H. now injection H as <-.
  - rewrite fromBytes_payload in H';
      [now injection H' as <- | assumption | cbn [List.length] in *; lia].
Qed.

End WithParser.

End EncodingFacts.

(** ** Instances in range *)

Module RangeFacts.
Import U256 U256Facts BigNumberFacts BufferFacts CompareFacts.

Lemma toN_mk (n : N) : toN (mk (BigNumber.Finite false n 0)) = n.
Proof.
  unfold toN. cbn [value BigNumber.magnitude Z.leb Z.compare].
  change (Z.to_N 0) with 0. now rewrite N.pow_0_r, N.mul_1_r.
Qed.

Lemma inRange_mk (n : N) :
  inRange (mk (BigNumber.Finite false n 0)) = (n <=? 2 ^ 256 - 1).
Proof.
  unfold inRange. rewrite toN_mk. reflexivity.
Qed.

(** On instances in range [isEqualTo] is equality of the values. *)
Lemma isEqualTo_inRange (u1 u2 : t) :
  inRange u1 = true -> inRange u2 = true ->
  isEqualTo u1 u2 = (toN u1 =? toN u2).
Proof.
  intros H1 H2.
  apply inRange_parts in H1 as [Hi1 [Hn1 _]].
  apply inRange_parts in H2 as [Hi2 [Hn2 _]].
  unfold isEqualTo, BigNumber.isEqualTo.
  rewrite compare_integers by assumption. fold (toN u1) (toN u2).
  destruct (N.compare_spec (toN u1) (toN u2)) as [E|E|E];
    destruct (N.eqb_spec (toN u1) (toN u2)); try reflexivity; lia.
Qed.

Lemma payload_inRange (bytes : list byte) :
  (List.length bytes <= 32)%nat ->
  inRange (mk (BigNumber.Finite false (Buffer.valueBE bytes) 0)) = true.
Proof.
  intros Hlen. rewrite inRange_mk. apply N.leb_le.
  pose proof (valueBE_bound bytes 0) as Hb. unfold Buffer.valueBE.
  assert (256 ^ N.of_nat (List.length bytes) <= 256 ^ 32)
    by (apply N.pow_le_mono_r; lia).
  change (256 ^ 32) with (2 ^ 256) in *.
  assert (0 < 2 ^ 256) by reflexivity. lia.
Qed.

Lemma toString10_inRange (u : t) :
  inRange u = true -> BigNumber.toString10 (value u) = Dec.ofN (toN u).
Proof.
  intros H. apply inRange_parts in H as [Hi [Hn _]].
  destruct (isInteger_finite _ Hi) as [neg [c [e E]]].
  unfold toN. rewrite E in *. cbn [BigNumber.isNegative] in Hn. subst neg.
  reflexivity.
Qed.

End RangeFacts.

(** * Further properties of the class *)

Section Extras.
Import U256 U256Facts BigNumberFacts BufferFacts.
Import BigEndianFacts CompareFacts EncodingFacts RangeFacts.

Context {parser : BigNumber.Parser}.

(** X1.  Zero and every value from 128 to [2^256 - 1] survive encoding and
    decoding: [fromBytes] of [rlpBytes] returns an instance in range that
    [isEqualTo] the original. *)
Theorem X1_round_trip_from_128 (u : t) :
  inRange u = true -> toN u = 0 \/ 128 <= toN u ->
  exists u',
    fromBytes (rlpBytes u) = Return u' /\
    toN u' = toN u /\ inRange u' = true /\ isEqualTo u' u = true.
Proof.
  intros Hr Hn. eexists. split; [now apply fromBytes_rlpBytes|].
  assert (Hr' : inRange (mk (BigNumber.Finite false (toN u) 0)) = true).
  { rewrite inRange_mk. apply N.leb_le.
    now apply inRange_parts in Hr as [_ [_ Hm]]. }
  split; [apply toN_mk | split; [exact Hr'|]].
  rewrite isEqualTo_inRange, toN_mk by assumption. apply N.eqb_refl.
Qed.

(** X2.  The encoding is canonical: two instances in range have the same
    bytes exactly when they hold the same value, which is exactly when
    [isEqualTo] says so, however each BigNumber holds its value. *)
Theorem X2_encoding_is_canonical (u1 u2 : t) :
  inRange u1 = true -> inRange u2 = true ->
  (rlpBytes u1 = rlpBytes u2 <-> toN u1 = toN u2) /\
  (rlpBytes u1 = rlpBytes u2 <-> isEqualTo u1 u2 = true).
Proof.
  intros H1 H2.
  assert (A : rlpBytes u1 = rlpBytes u2 <-> toN u1 = toN u2).
  { split.
    - intros E. rewrite (rlpBytes_determines u1 H1),
                        (rlpBytes_determines u2 H2), E. reflexivity.
    - now apply rlpBytes_of_value. }
  split; [exact A|].
  rewrite A, isEqualTo_inRange by assumption. symmetry. apply N.eqb_eq.
Qed.

(** X3.  The encoding takes 1 to 33 bytes.  From 128 up it is the byte
    [0x80 + k] followed by the [k <= 32] bytes that spell the value most
    significant first, with no leading zero byte. *)
Theorem X3_encoding_layout (u : t) :
  inRange u = true ->
  (1 <= List.length (rlpBytes u) <= 33)%nat /\
  (128 <= toN u ->
   exists bytes,
     rlpBytes u =
       Buffer.byteOf (128 + N.of_nat (List.length bytes)) :: bytes /\
     Buffer.valueBE bytes = toN u /\
     Buffer.minimal bytes = true /\
     (1 <= List.length bytes <= 32)%nat).
Proof.
  intros Hr. split; [|now apply rlpBytes_large].
  destruct (N.eq_dec (toN u) 0) as [Hz|Hz].
  - rewrite (rlpBytes_zero u Hr Hz). cbn [List.length]. lia.
  - destruct (N.ltb_spec (toN u) 128) as [Hlt|Hge].
    + rewrite rlpBytes_small by (assumption || lia). cbn [List.length]. lia.
    + destruct (rlpBytes_large u Hr Hge) as [bytes [-> [_ [_ Hlen]]]].
      cbn [List.length]. lia.
Qed.

(** X4.  [fromBytes] throws nothing but its own two errors: the
    constructor it ends in never refuses what passed the length checks. *)
Theorem X4_fromBytes_errors (buffer : list byte) (e : Error) :
  fromBytes buffer = Throw e -> e = BufferTooLong \/ e = InvalidRLP.
Proof.
  intros Hthrow.
  destruct buffer as [|first bytes]; [injection Hthrow as <-; now right|].
  pose proof Hthrow as Hcopy. unfold fromBytes in Hcopy. cbv zeta in Hcopy.
  destruct (Z.ltb_spec 32 (Z.of_N (Byte.to_N first) - 0x80)) as [|H32];
    [injection Hcopy as <-; now left|].
  destruct (Z.eqb_spec (Z.of_nat (List.length bytes))
              (Z.of_N (Byte.to_N first) - 0x80)) as [El|];
    [|injection Hcopy as <-; now right].
  exfalso. clear Hcopy. destruct bytes as [|b bytes].
  - assert (Byte.to_N first = 128) as E by (cbn [List.length] in El; lia).
    replace first with x80 in Hthrow; [discriminate Hthrow|].
    apply BigEndianFacts.to_N_inj. now rewrite E.
  - rewrite fromBytes_payload in Hthrow;
      [discriminate Hthrow | lia | cbn [List.length] in *; lia].
Qed.

(** X5.  Whatever [fromBytes] returns holds the integer that the bytes
    after the first spell, most significant byte first; that integer is
    below [256^k] for [k <= 32] payload bytes, and the first byte is
    [0x80 + k]. *)
Theorem X5_fromBytes_result (buffer : list byte) (u : t) :
  fromBytes buffer = Return u ->
  exists first bytes,
    buffer = first :: bytes /\
    Byte.to_N first = 128 + N.of_nat (List.length bytes) /\
    (List.length bytes <= 32)%nat /\
    u = mk (BigNumber.Finite false (Buffer.valueBE bytes) 0) /\
    toN u = Buffer.valueBE bytes /\
    toN u < 256 ^ N.of_nat (List.length bytes).
Proof.
  intros H.
  destruct (fromBytes_Return _ H) as [first [bytes [E [Hf [Hl ->]]]]].
  exists first, bytes. rewrite toN_mk.
  repeat (split; [assumption || reflexivity|]).
  pose proof (valueBE_bound bytes 0) as Hb. unfold Buffer.valueBE. lia.
Qed.

(** X6.  [check] answers false on an input that [ensure] accepts in exactly
    one case: an object that only has the type of a BigNumber or a U256,
    made by another copy of the class.  It fails both [instanceof] tests and
    is no string, so [checkString] answers false, while [ensure] reads it
    through its string form and accepts it when the constructor accepts
    that string.  On instances of this class, strings, native numbers and
    BigNumbers of the imported class, [check] answers true whenever
    [ensure] accepts. *)
Theorem X6_check_false_negatives (param : Param) :
  ((returns (ensure param) = true /\ check param = Return false) <->
   (exists s, param = PValue (VObject s) /\
              returns (constructor (VString s)) = true)) /\
  ((forall s, param <> PValue (VObject s)) ->
   returns (ensure param) = true -> check param = Return true).
Proof.
  assert (Hgood : (forall s, param <> PValue (VObject s)) ->
                  returns (ensure param) = true -> check param = Return true).
  { destruct param as [u|[n|s|b|s]]; cbn [ensure]; intros Hno H.
    - reflexivity.
    - rewrite constructor_spec in H. cbv zeta in H. cbn [toBigNumber] in H.
      rewrite ofNumber_isInteger in H. cbn [check].
      destruct (Number.isInteger n) eqn:Hi; [|discriminate H].
      destruct n as [|neg|neg c e]; try discriminate Hi.
      cbn [BigNumber.ofNumber BigNumber.isNegative negb orb] in H.
      destruct neg; [discriminate H | reflexivity].
    - now rewrite check_string, H.
    - now rewrite check_BigNumber, H.
    - exfalso. now apply (Hno s). }
  split; [|exact Hgood]. split.
  - intros [He Hc]. destruct param as [u|[n|s|b|s]];
      try (rewrite Hgood in Hc by (assumption || discriminate);
           discriminate Hc).
    exists s. split; [reflexivity | exact He].
  - intros [s [-> H]]. split; [exact H | reflexivity].
Qed.

(** X7.  [check] answers true on an input that [ensure] refuses in exactly
    two cases, both native numbers: [-0], and an integer above
    [2^256 - 1].  On every string, every BigNumber of the imported class
    and every instance of this class, [check] answers exactly whether
    [ensure] returns. *)
Theorem X7_where_check_and_ensure_disagree (param : Param) :
  ((check param = Return true /\ returns (ensure param) = false) <->
   (exists neg c e,
      param = PValue (VNumber (Number.Finite neg c e)) /\
      Number.isInteger (Number.Finite neg c e) = true /\
      ((neg = true /\ c = 0) \/
       (neg = false /\
        2 ^ 256 - 1 <
        BigNumber.magnitude
          (BigNumber.ofNumber (Number.Finite neg c e)))))) /\
  ((forall n, param <> PValue (VNumber n)) ->
   (forall s, param <> PValue (VObject s)) ->
   check param = Return (returns (ensure param))).
Proof.
  split; [split|].
  - intros [Hc He]. destruct param as [u|[n|s|b|s]]; cbn [ensure] in He.
    + discriminate He.
    + cbn [check] in Hc. injection Hc as Hc.
      apply andb_prop in Hc as [Hi Hg].
      destruct n as [|neg|neg c e]; try discriminate Hi.
      exists neg, c, e. split; [reflexivity | split; [exact Hi|]].
      rewrite constructor_spec in He. cbv zeta in He.
      cbn [toBigNumber] in He. rewrite ofNumber_isInteger, Hi in He.
      cbn [BigNumber.ofNumber BigNumber.isNegative negb orb] in *.
      destruct neg.
      * left. cbn [Number.geZero negb orb] in Hg.
        apply N.eqb_eq in Hg. auto.
      * right. split; [reflexivity|].
        destruct (N.leb_spec
                    (BigNumber.magnitude (BigNumber.Finite false c e))
                    (2 ^ 256 - 1)); [discriminate He | assumption].
    + rewrite check_string in Hc. congruence.
    + rewrite check_BigNumber in Hc. congruence.
    + discriminate Hc.
  - intros [neg [c [e [-> [Hi Hcase]]]]]. cbn [check ensure].
    rewrite constructor_spec. cbv zeta. cbn [toBigNumber].
    rewrite ofNumber_isInteger, Hi.
    cbn [BigNumber.ofNumber BigNumber.isNegative negb orb andb] in *.
    destruct Hcase as [[-> ->]|[-> Hm]].
    + split; reflexivity.
    + cbn [Number.geZero negb orb]. split; [reflexivity|].
      destruct (N.leb_spec
                  (BigNumber.magnitude (BigNumber.Finite false c e))
                  (2 ^ 256 - 1)); [lia | reflexivity].
  - intros Hnum Hobj. destruct param as [u|[n|s|b|s]].
    + reflexivity.
    + exfalso. now apply (Hnum n).
    + apply check_string.
    + apply check_BigNumber.
    + exfalso. now apply (Hobj s).
Qed.

(** X8.  On instances in range [isEqualTo] is equality of the values held,
    whatever coefficient and exponent each BigNumber holds its value with:
    the instances made from ["1e3"] and from [1000] are equal. *)
Theorem X8_isEqualTo_compares_values (u1 u2 : t) :
  inRange u1 = true -> inRange u2 = true ->
  isEqualTo u1 u2 = (toN u1 =? toN u2).
Proof. apply isEqualTo_inRange. Qed.

(** X9.  An instance is in range exactly when the constructor accepts its
    value: [new U256(u.value)] returns for every instance in range, and
    what it returns holds the same BigNumber value, so it [isEqualTo] [u]
    and has the same bytes.  (In the source it is a new object.) *)
Theorem X9_constructing_from_the_value (u : t) :
  (returns (constructor (VBigNumber (value u))) = true <->
   inRange u = true) /\
  (inRange u = true ->
   exists u',
     constructor (VBigNumber (value u)) = Return u' /\
     value u' = value u /\
     isEqualTo u' u = true /\
     rlpBytes u' = rlpBytes u).
Proof.
  assert (E : inRange u = true ->
              constructor (VBigNumber (value u)) = Return u).
  { intros Hr. rewrite constructor_spec. cbv zeta. cbn [toBigNumber].
    apply inRange_parts in Hr as [Hi [Hn Hm]]. rewrite Hi, Hn.
    cbn [negb orb]. fold (toN u). apply N.leb_le in Hm. rewrite Hm.
    destruct u. reflexivity. }
  split; [split|].
  - intros H.
    destruct (constructor (VBigNumber (value u))) as [u'|] eqn:Ec;
      [|discriminate H].
    apply constructor_Return in Ec as [Ev Hr]. cbn [toBigNumber] in Ev.
    destruct u' as [x], u as [y]. cbn [value] in Ev. now subst.
  - intros Hr. now rewrite (E Hr).
  - intros Hr. exists u. split; [exact (E Hr) | split; [reflexivity|]].
    split; [|reflexivity].
    rewrite isEqualTo_inRange by assumption. apply N.eqb_refl.
Qed.

(** X10.  What [toEncodeObject] hands to the codec: the number 0 for zero,
    and otherwise ["0x"] followed by the hexadecimal digits of the value,
    with one ["0"] put in front when their number is odd; so always an even
    number of lowercase digits, between 2 and 64, that spell the value. *)
Theorem X10_toEncodeObject_shape (u : t) :
  inRange u = true ->
  (toN u = 0 -> toEncodeObject u = RLP.Int 0) /\
  (toN u <> 0 ->
   exists h,
     toEncodeObject u = RLP.Str (str "0x" ++ h) /\
     (h = Hex.ofN (toN u) \/ h = "0"%char :: Hex.ofN (toN u)) /\
     Nat.even (List.length h) = true /\
     (2 <= List.length h <= 64)%nat /\
     forallb Hex.isLower h = true /\
     Hex.parse 0 h = Some (toN u)).
Proof.
  intros Hr. unfold toEncodeObject. cbv zeta.
  rewrite toString16_inRange by assumption.
  split.
  - intros ->. reflexivity.
  - intros Hz. set (hex := Hex.ofN (toN u)).
    destruct (list_eq_dec ascii_dec hex (str "0")) as [E|_];
      [apply HexFacts.ofN_zero in E; contradiction|].
    pose proof (HexFacts.ofN_lower (toN u)) as Hlow.
    pose proof (HexFacts.parse_ofN (toN u)) as Hparse.
    pose proof (HexFacts.ofN_nonempty (toN u)) as Hne.
    assert (H64 : (List.length hex <= 64)%nat).
    { apply (HexFacts.ofN_length (toN u) 63).
      change (16 ^ N.of_nat 64) with (2 ^ 256). now apply inRange_bound. }
    fold hex in Hlow, Hparse, Hne.
    destruct (Nat.even (List.length hex)) eqn:Hev.
    + exists hex. split; [reflexivity|]. split; [now left|].
      split; [assumption|]. split; [|split; assumption].
      destruct hex as [|a [|b hex']]; cbn [List.length] in *;
        [congruence | discriminate Hev | lia].
    + exists ("0"%char :: hex). cbn [List.length].
      assert (List.length hex <> 64%nat)
        by (intros E; rewrite E in Hev; discriminate).
      split; [reflexivity|]. split; [now right|].
      split; [rewrite Nat.even_succ; unfold Nat.odd; now rewrite Hev|].
      split; [destruct hex; [congruence | cbn [List.length] in *; lia]|].
      split; assumption.
Qed.

(** X11.  Encoding what [fromBytes] returned gives the buffer back exactly
    when the buffer is the canonical one: its payload has no leading zero
    byte and is not a single byte below 128.  ([fromBytes] accepts the
    others too, and they encode to something shorter.) *)
Theorem X11_reencoding (first : byte) (bytes : list byte) (u : t) :
  fromBytes (first :: bytes) = Return u ->
  (rlpBytes u = first :: bytes <->
   Buffer.minimal bytes = true /\
   (forall b, bytes = [b] -> 128 <= Byte.to_N b)).
Proof.
  intros H.
  destruct (fromBytes_Return _ H) as [f [bs [[= <- <-] [Hf [Hl ->]]]]].
  pose proof (payload_inRange bytes Hl) as Hr.
  set (u := mk (BigNumber.Finite false (Buffer.valueBE bytes) 0)) in *.
  assert (Hv : toN u = Buffer.valueBE bytes) by apply toN_mk.
  split.
  - intros E.
    destruct (N.eq_dec (toN u) 0) as [Hz|Hz].
    { rewrite (rlpBytes_zero u Hr Hz) in E. injection E as _ <-.
      split; [reflexivity | intros b [=]]. }
    destruct (N.ltb_spec (toN u) 128) as [Hlt|Hge].
    { exfalso. rewrite rlpBytes_small in E by (assumption || lia).
      injection E as E1 <-. rewrite <- E1, byteOf_to_N in Hf by lia.
      cbn [List.length] in Hf. lia. }
    destruct (rlpBytes_large u Hr Hge) as [enc [E' [Hv' [Hm _]]]].
    rewrite E' in E. injection E as _ ->.
    split; [exact Hm|].
    intros b ->. unfold Buffer.valueBE in Hv. cbn [fold_left] in Hv. lia.
  - intros [Hm Hone]. destruct bytes as [|b bytes].
    + assert (first = x80) as ->.
      { apply to_N_inj. rewrite Hf. reflexivity. }
      apply rlpBytes_zero; [exact Hr | exact Hv].
    + assert (Hge : 128 <= toN u).
      { rewrite Hv. destruct bytes as [|b' bytes].
        - specialize (Hone b eq_refl).
          unfold Buffer.valueBE. cbn [fold_left]. lia.
        - pose proof (proj1 (minimal_head _ _) Hm) as Hb.
          pose proof (valueBE_lower (b' :: bytes) (Byte.to_N b)) as Hlo.
          unfold Buffer.valueBE. cbn [fold_left] in *.
          rewrite N.mul_0_r, N.add_0_l.
          cbn [List.length] in Hlo.
          rewrite Nat2N.inj_succ, N.pow_succ_r' in Hlo.
          assert (256 ^ N.of_nat (List.length bytes) <> 0)
            by (apply N.pow_nonzero; lia).
          nia. }
      destruct (rlpBytes_large u Hr Hge) as [enc [E' [Hv' [Hm' _]]]].
      assert (enc = b :: bytes) as ->.
      { apply minimal_unique; [exact Hm' | exact Hm | congruence]. }
      rewrite E'. f_equal. apply to_N_inj.
      rewrite Hf, byteOf_to_N; [reflexivity|].
      cbn [List.length] in *. lia.
Qed.

(** X12.  [toString(16)] of an instance in range is the value in
    hexadecimal: 1 to 64 lowercase digits, no prefix, no leading zero
    unless the value is 0.  Put behind ["0x"] and given to the constructor,
    it makes an instance holding the same value. *)
Theorem X12_toString_16 (u : t) :
  inRange u = true ->
  let h := toString u (Some Base16) in
  (1 <= List.length h <= 64)%nat /\
  forallb Hex.isLower h = true /\
  Hex.parse 0 h = Some (toN u) /\
  (forall rest, h = "0"%char :: rest -> rest = []) /\
  constructor (VString (str "0x" ++ h)) =
    Return (mk (BigNumber.Finite false (toN u) 0)).
Proof.
  intros Hr h. unfold h, toString.
  rewrite toString16_inRange by assumption.
  pose proof (HexFacts.ofN_nonempty (toN u)) as Hne.
  split; [split|split; [|split; [|split]]].
  - destruct (Hex.ofN (toN u)); [congruence | cbn [List.length]; lia].
  - apply (HexFacts.ofN_length (toN u) 63).
    change (16 ^ N.of_nat 64) with (2 ^ 256). now apply inRange_bound.
  - apply HexFacts.ofN_lower.
  - apply HexFacts.parse_ofN.
  - apply DigitFacts.ofN_no_leading_zero.
  - apply constructor_integer.
    + cbn [toBigNumber]. apply BigNumber.ofString_hex;
        [exact Hne | apply HexFacts.uniformCase_lower, HexFacts.ofN_lower
        | apply HexFacts.parse_ofN].
    + now apply inRange_parts in Hr as [_ [_ Hm]].
Qed.

(** X13.  [toString()] is [toString(10)], and for an instance in range it
    is the decimal numeral of the value: 1 to 78 digits, no sign, no
    exponent, no leading zero unless the value is 0.  With a reader that
    takes a string of digits for the decimal integer it spells, the
    constructor makes of it an instance holding the same value. *)
Theorem X13_toString_decimal (u : t) :
  inRange u = true ->
  let d := toString u None in
  d = toString u (Some Base10) /\
  (1 <= List.length d <= 78)%nat /\
  forallb Hex.isDecimal d = true /\
  BigNumber.decimalValue d = toN u /\
  (forall rest, d = "0"%char :: rest -> rest = []) /\
  ((forall ds, ds <> [] -> forallb Hex.isDecimal ds = true ->
               BigNumber.ofString ds =
               BigNumber.Finite false (BigNumber.decimalValue ds) 0) ->
   constructor (VString d) =
     Return (mk (BigNumber.Finite false (toN u) 0))).
Proof.
  intros Hr d. unfold d, toString.
  rewrite toString10_inRange by assumption.
  pose proof (DecFacts.numeral_nonempty (toN u)) as Hne.
  split; [reflexivity|].
  split; [split|split; [|split; [|split]]].
  - destruct (Dec.ofN (toN u)); [congruence | cbn [List.length]; lia].
  - apply (DecFacts.numeral_length (toN u) 77).
    apply N.lt_trans with (2 ^ 256); [now apply inRange_bound | reflexivity].
  - apply DecFacts.numeral_decimal.
  - apply DecFacts.numeral_value.
  - apply DecFacts.numeral_no_leading_zero.
  - intros Hread. apply constructor_integer.
    + cbn [toBigNumber].
      rewrite Hread, DecFacts.numeral_value;
        [reflexivity | exact Hne | apply DecFacts.numeral_decimal].
    + now apply inRange_parts in Hr as [_ [_ Hm]].
Qed.

(** X14.  A string of ["0x"] and hexadecimal digits of one case is accepted
    by the constructor exactly when the digits spell at most [2^256 - 1],
    and the instance holds what they spell; with 64 digits or fewer,
    leading zeros included, it is always accepted. *)
Theorem X14_constructor_hex_string (ds : list ascii) (n : N) :
  ds <> [] -> Hex.uniformCase ds = true -> Hex.parse 0 ds = Some n ->
  constructor (VString (str "0x" ++ ds)) =
    (if n <=? 2 ^ 256 - 1
     then Return (mk (BigNumber.Finite false n 0))
     else Throw OutOfRange) /\
  ((List.length ds <= 64)%nat -> n <= 2 ^ 256 - 1).
Proof.
  intros Hne Hu Hp. split.
  - rewrite constructor_spec. cbv zeta. cbn [toBigNumber].
    rewrite (BigNumber.ofString_hex Hne Hu Hp).
    cbn [BigNumber.isInteger BigNumber.isNegative BigNumber.magnitude
         Z.leb Z.compare negb orb].
    change (Z.to_N 0) with 0. rewrite N.pow_0_r, N.mul_1_r.
    destruct (n <=? 2 ^ 256 - 1); reflexivity.
  - intros Hlen. apply DigitFacts.parse_bound in Hp.
    rewrite N.add_0_l, N.mul_1_l in Hp.
    assert (16 ^ N.of_nat (List.length ds) <= 16 ^ 64)
      by (apply N.pow_le_mono_r; lia).
    change (16 ^ 64) with (2 ^ 256) in *.
    assert (0 < 2 ^ 256) by reflexivity. lia.
Qed.

(** X15.  [increase] looks at the value alone: on two instances in range
    that are equal it throws on both or returns two instances that are
    equal, each holding one more. *)
Theorem X15_increase_respects_equality (u1 u2 : t) :
  inRange u1 = true -> inRange u2 = true -> isEqualTo u1 u2 = true ->
  (increase u1 = Throw OutOfRange /\ increase u2 = Throw OutOfRange) \/
  (exists v1 v2,
     increase u1 = Return v1 /\ increase u2 = Return v2 /\
     toN v1 = toN u1 + 1 /\ toN v2 = toN u2 + 1 /\
     isEqualTo v1 v2 = true).
Proof.
  intros H1 H2 E. rewrite isEqualTo_inRange in E by assumption.
  apply N.eqb_eq in E.
  rewrite (increase_spec u1 H1), (increase_spec u2 H2), <- E.
  destruct (N.leb_spec (toN u1 + 1) (2 ^ 256 - 1)) as [Hle|Hgt];
    [right | left; split; reflexivity].
  pose proof (inRange_parts u1 H1) as [Hi1 [Hn1 _]].
  pose proof (inRange_parts u2 H2) as [Hi2 [Hn2 _]].
  destruct (plus_one (value u1) Hi1 Hn1) as [Ha1 [Hb1 Hc1]].
  destruct (plus_one (value u2) Hi2 Hn2) as [Ha2 [Hb2 Hc2]].
  eexists. eexists. split; [reflexivity | split; [reflexivity|]].
  unfold isEqualTo, BigNumber.isEqualTo, toN. cbn [value].
  rewrite compare_integers by assumption.
  rewrite Hc1, Hc2. fold (toN u1) (toN u2). rewrite <- E.
  split; [reflexivity | split; [reflexivity|]].
  now rewrite N.compare_refl.
Qed.

End Extras.

(** ** The reference reader on digit strings *)

Module ReaderDecimalFacts.
Import BigNumber.

Lemma spanDigits_all (ds : list ascii) :
  forallb Hex.isDecimal ds = true -> spanDigits ds = (ds, []).
Proof.
  induction ds as [|c ds IH]; [reflexivity|].
  cbn [forallb spanDigits]. intros H. apply andb_prop in H as [Hc Hds].
  now rewrite Hc, IH.
Qed.

Lemma read_digits (ds : list ascii) :
  ds <> [] -> forallb Hex.isDecimal ds = true ->
  read ds = Finite false (decimalValue ds) 0.
Proof.
  intros Hne Hd. destruct ds as [|c ds]; [congruence|].
  assert (Hsign : takeSign (c :: ds) = (false, c :: ds)).
  { cbn [takeSign]. destruct (Ascii.eqb_spec c "-") as [->|]; [|reflexivity].
    discriminate Hd. }
  unfold read, readDecimal. rewrite Hsign, (spanDigits_all _ Hd).
  cbn [readExponent List.length]. now rewrite app_nil_r.
Qed.

End ReaderDecimalFacts.

(** * The further properties on concrete inputs *)

(** 128 is encoded as [[0x81, 0x80]] and comes back. *)
Lemma X1_witness :
  (U256.inRange (U256.mk (BigNumber.Finite false 128 0)) = true /\
   (U256.toN (U256.mk (BigNumber.Finite false 128 0)) = 0 \/
    128 <= U256.toN (U256.mk (BigNumber.Finite false 128 0)))) /\
  exists u',
    U256.fromBytes (U256.rlpBytes (U256.mk (BigNumber.Finite false 128 0))) =
      U256.Return u' /\
    U256.toN u' = U256.toN (U256.mk (BigNumber.Finite false 128 0)) /\
    U256.inRange u' = true /\
    U256.isEqualTo u' (U256.mk (BigNumber.Finite false 128 0)) = true.
Proof.
  split; [split; [reflexivity | right; discriminate]|].
  apply X1_round_trip_from_128;
    [reflexivity | right; discriminate].
Defined.

(** 1000 held as [1 * 10^3] and as [1000 * 10^0]. *)
Lemma X2_witness :
  (U256.inRange (U256.mk (BigNumber.Finite false 1 3)) = true /\
   U256.inRange (U256.mk (BigNumber.Finite false 1000 0)) = true) /\
  (U256.rlpBytes (U256.mk (BigNumber.Finite false 1 3)) =
   U256.rlpBytes (U256.mk (BigNumber.Finite false 1000 0)) <->
   U256.toN (U256.mk (BigNumber.Finite false 1 3)) =
   U256.toN (U256.mk (BigNumber.Finite false 1000 0))) /\
  (U256.rlpBytes (U256.mk (BigNumber.Finite false 1 3)) =
   U256.rlpBytes (U256.mk (BigNumber.Finite false 1000 0)) <->
   U256.isEqualTo (U256.mk (BigNumber.Finite false 1 3))
     (U256.mk (BigNumber.Finite false 1000 0)) = true).
Proof.
  split; [split; reflexivity|].
  apply X2_encoding_is_canonical; reflexivity.
Defined.

Lemma X3_witness :
  U256.inRange (U256.mk (BigNumber.Finite false 65535 0)) = true /\
  (1 <= List.length (U256.rlpBytes (U256.mk (BigNumber.Finite false 65535 0)))
   <= 33)%nat /\
  (128 <= U256.toN (U256.mk (BigNumber.Finite false 65535 0)) ->
   exists bytes,
     U256.rlpBytes (U256.mk (BigNumber.Finite false 65535 0)) =
       Buffer.byteOf (128 + N.of_nat (List.length bytes)) :: bytes /\
     Buffer.valueBE bytes =
       U256.toN (U256.mk (BigNumber.Finite false 65535 0)) /\
     Buffer.minimal bytes = true /\
     (1 <= List.length bytes <= 32)%nat).
Proof.
  split; [reflexivity|].
  apply X3_encoding_layout.
  reflexivity.
Defined.

(** A lone byte below 0x80 gets the "Invalid RLP" error. *)
Lemma X4_witness :
  U256.fromBytes [x05] = U256.Throw U256.InvalidRLP /\
  (U256.InvalidRLP = U256.BufferTooLong \/ U256.InvalidRLP = U256.InvalidRLP).
Proof.
  split; [reflexivity|].
  apply X4_fromBytes_errors with (buffer := [x05]). reflexivity.
Defined.

Lemma X5_witness :
  U256.fromBytes [x82; x01; x00] =
    U256.Return (U256.mk (BigNumber.Finite false 256 0)) /\
  exists first bytes,
    [x82; x01; x00] = first :: bytes /\
    Byte.to_N first = 128 + N.of_nat (List.length bytes) /\
    (List.length bytes <= 32)%nat /\
    U256.mk (BigNumber.Finite false 256 0) =
      U256.mk (BigNumber.Finite false (Buffer.valueBE bytes) 0) /\
    U256.toN (U256.mk (BigNumber.Finite false 256 0)) =
      Buffer.valueBE bytes /\
    U256.toN (U256.mk (BigNumber.Finite false 256 0)) <
      256 ^ N.of_nat (List.length bytes).
Proof.
  split; [reflexivity|].
  apply X5_fromBytes_result.
  reflexivity.
Defined.

(** A BigNumber from another copy of the library that holds 5: [check]
    says no, [ensure] accepts. *)
Lemma X6_witness :
  U256.returns (U256.ensure (U256.PValue (U256.VObject (str "5")))) = true /\
  U256.check (U256.PValue (U256.VObject (str "5"))) = U256.Return false.
Proof.
  apply (proj2 (proj1 (X6_check_false_negatives
                         (U256.PValue (U256.VObject (str "5")))))).
  exists (str "5"). split; reflexivity.
Defined.

(** ["1e3"] and [1000]. *)
Lemma X8_witness :
  (U256.inRange (U256.mk (BigNumber.Finite false 1 3)) = true /\
   U256.inRange (U256.mk (BigNumber.Finite false 1000 0)) = true) /\
  U256.isEqualTo (U256.mk (BigNumber.Finite false 1 3))
    (U256.mk (BigNumber.Finite false 1000 0)) =
  (U256.toN (U256.mk (BigNumber.Finite false 1 3)) =?
   U256.toN (U256.mk (BigNumber.Finite false 1000 0))).
Proof.
  split; [split; reflexivity|].
  apply X8_isEqualTo_compares_values; reflexivity.
Defined.

Lemma X9_witness :
  U256.inRange (U256.mk (BigNumber.Finite false 1 3)) = true /\
  exists u',
    U256.constructor (U256.VBigNumber (BigNumber.Finite false 1 3)) =
      U256.Return u' /\
    U256.value u' = BigNumber.Finite false 1 3 /\
    U256.isEqualTo u' (U256.mk (BigNumber.Finite false 1 3)) = true /\
    U256.rlpBytes u' = U256.rlpBytes (U256.mk (BigNumber.Finite false 1 3)).
Proof.
  split; [reflexivity|].
  apply (proj2 (X9_constructing_from_the_value
                  (U256.mk (BigNumber.Finite false 1 3)))).
  reflexivity.
Defined.

(** 256 has three digits and is handed over as ["0x0100"]. *)
Lemma X10_witness :
  U256.inRange (U256.mk (BigNumber.Finite false 256 0)) = true /\
  (U256.toN (U256.mk (BigNumber.Finite false 256 0)) = 0 ->
   U256.toEncodeObject (U256.mk (BigNumber.Finite false 256 0)) = RLP.Int 0) /\
  (U256.toN (U256.mk (BigNumber.Finite false 256 0)) <> 0 ->
   exists h,
     U256.toEncodeObject (U256.mk (BigNumber.Finite false 256 0)) =
       RLP.Str (str "0x" ++ h) /\
     (h = Hex.ofN (U256.toN (U256.mk (BigNumber.Finite false 256 0))) \/
      h = "0"%char ::
          Hex.ofN (U256.toN (U256.mk (BigNumber.Finite false 256 0)))) /\
     Nat.even (List.length h) = true /\
     (2 <= List.length h <= 64)%nat /\
     forallb Hex.isLower h = true /\
     Hex.parse 0 h =
       Some (U256.toN (U256.mk (BigNumber.Finite false 256 0)))).
Proof.
  split; [reflexivity|].
  apply X10_toEncodeObject_shape.
  reflexivity.
Defined.

(** [[0x81, 0x10]] decodes to 16, which encodes to [[0x10]]. *)
Lemma X11_witness :
  U256.fromBytes [x81; x10] =
    U256.Return (U256.mk (BigNumber.Finite false 16 0)) /\
  (U256.rlpBytes (U256.mk (BigNumber.Finite false 16 0)) = [x81; x10] <->
   Buffer.minimal [x10] = true /\
   (forall b, [x10] = [b] -> 128 <= Byte.to_N b)).
Proof.
  split; [reflexivity|].
  apply X11_reencoding.
  reflexivity.
Defined.

Lemma X12_witness :
  U256.inRange (U256.mk (BigNumber.Finite false 255 0)) = true /\
  U256.toString (U256.mk (BigNumber.Finite false 255 0))
    (Some U256.Base16) = str "ff" /\
  U256.constructor (U256.VString (str "0xff")) =
    U256.Return (U256.mk (BigNumber.Finite false 255 0)).
Proof.
  split; [reflexivity|]. split; [reflexivity|].
  exact (proj2 (proj2 (proj2 (proj2
           (X12_toString_16 (U256.mk (BigNumber.Finite false 255 0))
              eq_refl))))).
Defined.

Lemma X13_witness :
  U256.inRange (U256.mk (BigNumber.Finite false 1 3)) = true /\
  U256.toString (U256.mk (BigNumber.Finite false 1 3)) None = str "1000" /\
  U256.constructor (U256.VString (str "1000")) =
    U256.Return (U256.mk (BigNumber.Finite false 1000 0)).
Proof.
  split; [reflexivity|]. split; [reflexivity|].
  exact (proj2 (proj2 (proj2 (proj2 (proj2
           (X13_toString_decimal (U256.mk (BigNumber.Finite false 1 3))
              eq_refl)))))
           ReaderDecimalFacts.read_digits).
Defined.

Lemma X14_witness :
  (str "00FF" <> [] /\ Hex.uniformCase (str "00FF") = true /\
   Hex.parse 0 (str "00FF") = Some 255) /\
  U256.constructor (U256.VString (str "0x00FF")) =
    U256.Return (U256.mk (BigNumber.Finite false 255 0)) /\
  ((List.length (str "00FF") <= 64)%nat -> 255 <= 2 ^ 256 - 1).
Proof.
  split; [split; [discriminate | split; reflexivity]|].
  apply X14_constructor_hex_string with (ds := str "00FF") (n := 255);
    [discriminate | reflexivity | reflexivity].
Defined.

(** [-0]: accepted by [check], refused by [ensure]. *)
Lemma X7_witness :
  U256.check (U256.PValue (U256.VNumber (Number.Finite true 0 0))) =
    U256.Return true /\
  U256.returns
    (U256.ensure (U256.PValue (U256.VNumber (Number.Finite true 0 0)))) =
    false.
Proof.
  apply (proj2 (proj1 (X7_where_check_and_ensure_disagree
                         (U256.PValue
                            (U256.VNumber (Number.Finite true 0 0)))))).
  exists true, 0, 0%Z.
  split; [reflexivity | split; [reflexivity | left; split; reflexivity]].
Defined.

(** 41 held as [41] and as [410 * 10^-1]: [increase] gives 42 on both. *)
Lemma X15_witness :
  (U256.inRange (U256.mk (BigNumber.Finite false 41 0)) = true /\
   U256.inRange (U256.mk (BigNumber.Finite false 410 (-1))) = true /\
   U256.isEqualTo (U256.mk (BigNumber.Finite false 41 0))
     (U256.mk (BigNumber.Finite false 410 (-1))) = true) /\
  ((U256.increase (U256.mk (BigNumber.Finite false 41 0)) =
      U256.Throw U256.OutOfRange /\
    U256.increase (U256.mk (BigNumber.Finite false 410 (-1))) =
      U256.Throw U256.OutOfRange) \/
   (exists v1 v2,
      U256.increase (U256.mk (BigNumber.Finite false 41 0)) =
        U256.Return v1 /\
      U256.increase (U256.mk (BigNumber.Finite false 410 (-1))) =
        U256.Return v2 /\
      U256.toN v1 = U256.toN (U256.mk (BigNumber.Finite false 41 0)) + 1 /\
      U256.toN v2 =
        U256.toN (U256.mk (BigNumber.Finite false 410 (-1))) + 1 /\
      U256.isEqualTo v1 v2 = true)).
Proof.
  split; [split; [reflexivity | split; reflexivity]|].
  apply X15_increase_respects_equality; reflexivity.
Defined.

Example toString_of_the_maximum :
  U256.toString (U256.mk (BigNumber.Finite false (2 ^ 256 - 1) 0)) None =
    str "115792089237316195423570985008687907853269984665640564039457584007913129639935" /\
  U256.toString (U256.mk (BigNumber.Finite false (2 ^ 256 - 1) 0))
    (Some U256.Base16) =
    str "ffffffffffffffffffffffffffffffffffffffffffffffffffffffffffffffff".
Proof. split; vm_compute; reflexivity. Qed.
